(** * atm-cli: the login action and the transaction engine of [atm.js]

    A shallow embedding of the command actions of [src/atm.js] (register,
    login, check-balance, deposit, withdraw, transfer) together with the
    session file of [src/session/session.js], and the properties of the
    specification settled against them.

    Modelling decisions, all visible in the definitions below:

    - A JavaScript number is [Js.number]: NaN, the two infinities, or a finite
      value.  Finite values are exact integers, counted in the smallest unit
      the store's DECIMAL scale resolves; IEEE rounding is not modelled.
    - The relational store behind [./model/db.js] is two tables held as lists
      of rows, in row order.  It keeps every value the code hands to it.  A
      statement the real store refuses, whatever the cause, is a store
      failure: [fault] says after how many further statements the store
      fails, and a [closed] connection fails every statement.
    - Every action runs in the error-and-state monad [M]: [throw] is a
      JavaScript exception, [try_finally] is the [try]/[catch]/[finally] frame
      of each action (the caught error is the reported outcome, and
      [db.end()] always runs). *)

From Stdlib Require Import ZArith List Ascii String Bool Lia.
Import ListNotations.

Local Open Scope string_scope.
Local Open Scope list_scope.
Local Open Scope Z_scope.

(* ------------------------------------------------------------------ *)
(** ** JavaScript values *)

Module Js.

Inductive number : Type :=
| NaN
| NegInf
| Fin (z : Z)
| PosInf.

Definition isNaN (n : number) : bool :=
  match n with NaN => true | _ => false end.

(** [a < b]; every comparison with NaN is false. *)
Definition lt (a b : number) : bool :=
  match a, b with
  | NaN, _ | _, NaN => false
  | NegInf, NegInf => false
  | NegInf, _ => true
  | Fin _, NegInf => false
  | Fin x, Fin y => x <? y
  | Fin _, PosInf => true
  | PosInf, _ => false
  end.

Definition eqn (a b : number) : bool :=
  match a, b with
  | Fin x, Fin y => x =? y
  | NegInf, NegInf | PosInf, PosInf => true
  | _, _ => false
  end.

(** [a <= b] and [a > b]. *)
Definition le (a b : number) : bool := lt a b || eqn a b.
Definition gt (a b : number) : bool := lt b a.

(** [a + b] and [a - b].  On finite values they are exact: the rounding of
    doubles (beyond 2^53 in whole units) is outside the model, and sums of
    balances are not compared through them. *)
Definition add (a b : number) : number :=
  match a, b with
  | NaN, _ | _, NaN => NaN
  | PosInf, NegInf | NegInf, PosInf => NaN
  | PosInf, _ | _, PosInf => PosInf
  | NegInf, _ | _, NegInf => NegInf
  | Fin x, Fin y => Fin (x + y)
  end.

Definition neg (a : number) : number :=
  match a with
  | NaN => NaN
  | NegInf => PosInf
  | Fin x => Fin (- x)
  | PosInf => NegInf
  end.

Definition sub (a b : number) : number := add a (neg b).

(** The values the login action tests with [!]: a boolean, or the Promise
    that an asynchronous call returns when it is not awaited. *)
Inductive value : Type :=
| Boolean (b : bool)
| Promise (settles_to : bool).

(** ToBoolean: every object, a Promise included, is truthy. *)
Definition truthy (v : value) : bool :=
  match v with
  | Boolean b => b
  | Promise _ => true
  end.

(** A reader for the literals the examples of this file use, not
    JavaScript's [Number] at large: the empty string, [Infinity], and short
    decimal integers with an optional minus sign.  It agrees with [Number]
    on those while the integer is below 2^53; it reads larger integers
    exactly where [Number] rounds, and it gives NaN on fractions, exponents
    and the other literal forms [Number] accepts. *)
Definition digit (c : Ascii.ascii) : option Z :=
  let n := Z.of_N (Ascii.N_of_ascii c) in
  if (48 <=? n) && (n <=? 57) then Some (n - 48) else None.

Fixpoint digits (s : string) (acc : Z) : option Z :=
  match s with
  | EmptyString => Some acc
  | String c r =>
      match digit c with
      | Some d => digits r (10 * acc + d)
      | None => None
      end
  end.

Definition NumberOfLiteral (s : string) : number :=
  match s with
  | EmptyString => Fin 0
  | String "-"%char (String c r) =>
      match digits (String c r) 0 with
      | Some z => Fin (- z)
      | None => if String.eqb (String c r) "Infinity" then NegInf else NaN
      end
  | _ =>
      match digits s 0 with
      | Some z => Fin z
      | None => if String.eqb s "Infinity" then PosInf else NaN
      end
  end.

End Js.

(* ------------------------------------------------------------------ *)
(** ** The store: tables [accounts] and [transactions] *)

Module Store.

(** Modelled from the spec: the tables [accounts] and [transactions] of
    section 6 (the schema file and [./model/db.js] are imported by atm.js
    but are not among the sources).  A row keeps the columns the actions
    read or write; rows are kept in table order, and [accounts[0]] of a
    result is its first row. *)
Record Account : Type := mkAccount {
  acc_id : Z;
  acc_name : string;
  acc_pin : string;          (* column [pin]: the bcrypt hash *)
  acc_balance : Js.number    (* column [balance], as [Number(balance)] reads it *)
}.

Inductive TxType : Type := deposit | withdraw | transfer_out | transfer_in.

(** A bound parameter of a statement as atm.js passes it: the raw
    command-line string or a number. *)
Inductive param : Type :=
| PStr (s : string)
| PNum (n : Js.number).

(** A row of [transactions]; [created_at] is assigned by the store and is
    not read by any property here. *)
Record Transaction : Type := mkTransaction {
  tx_id : Z;
  tx_account_id : Z;
  tx_type : TxType;
  tx_amount : param;
  tx_target_id : option Z
}.

Record Db : Type := mkDb {
  accounts : list Account;
  transactions : list Transaction;
  auto_increment : Z            (* the id the next inserted transaction gets *)
}.

Definition set_balance (a : Account) (b : Js.number) : Account :=
  {| acc_id := acc_id a; acc_name := acc_name a; acc_pin := acc_pin a;
     acc_balance := b |}.

(** SELECT id, name, pin, balance FROM accounts WHERE name = ? *)
Definition select_accounts_by_name (n : string) (d : Db) : list Account * Db :=
  (filter (fun a => String.eqb (acc_name a) n) (accounts d), d).

(** SELECT id, name, balance FROM accounts WHERE id = ? *)
Definition select_accounts_by_id (i : Z) (d : Db) : list Account * Db :=
  (filter (fun a => acc_id a =? i) (accounts d), d).

(** UPDATE accounts SET balance = ? WHERE id = ? *)
Definition update_balance_by_id (b : Js.number) (i : Z) (d : Db) : unit * Db :=
  (tt,
   {| accounts :=
        map (fun a => if acc_id a =? i then set_balance a b else a) (accounts d);
      transactions := transactions d;
      auto_increment := auto_increment d |}).

(** UPDATE accounts SET balance = ? WHERE name = ? *)
Definition update_balance_by_name (b : Js.number) (n : string) (d : Db) : unit * Db :=
  (tt,
   {| accounts :=
        map (fun a => if String.eqb (acc_name a) n then set_balance a b else a)
            (accounts d);
      transactions := transactions d;
      auto_increment := auto_increment d |}).

(** INSERT INTO transactions (account_id, type, amount [, target_id])
    VALUES (...); the result is [insertId]. *)
Definition insert_transaction (account_id : Z) (ty : TxType) (amount : param)
           (target_id : option Z) (d : Db) : Z * Db :=
  (auto_increment d,
   {| accounts := accounts d;
      transactions :=
        transactions d ++
        [ {| tx_id := auto_increment d; tx_account_id := account_id;
             tx_type := ty; tx_amount := amount; tx_target_id := target_id |} ];
      auto_increment := auto_increment d + 1 |}).

(** SELECT id, type, amount, ... FROM transactions WHERE id = ? *)
Definition select_transactions_by_id (i : Z) (d : Db) : list Transaction * Db :=
  (filter (fun t => tx_id t =? i) (transactions d), d).

End Store.

(* ------------------------------------------------------------------ *)
(** ** The actions of atm.js *)

Module Atm.
Import Store.

(** The failures an action reports.  atm.js throws [Error(message)] and
    prints the message; each kind stands for the messages of the source
    quoted beside it.  [TypeError] is the runtime error of destructuring
    [undefined], and [StoreUnavailable] is a rejected [db.execute]. *)
Inductive error : Type :=
| LockedOut            (* Account locked due to multiple failed login attempts. ... *)
| PinRequired          (* PIN is required to log in into your account! *)
| InvalidCredentials   (* Invalid name or PIN *)
| NotAuthenticated     (* [Transaction declined.] You are not logged in yet! *)
| InvalidAmount        (* Invalid money input format. Please enter a positive number. *)
| InsufficientFunds    (* Transaction declined. Not enough balance. *)
| TargetNotFound       (* The target account with that id does not exist *)
| TypeError
| StoreUnavailable.

(** The content of session/session.json. *)
Record Session : Type := mkSession {
  session_id : Z;
  session_name : string
}.

Record World : Type := mkWorld {
  db : Db;                      (* the durable store *)
  session : option Session;     (* session.json, [None] when the file is absent *)
  failedLoginAttempts : nat;    (* the module-level counter of atm.js *)
  issued : nat;                 (* calls of db.execute made by this process *)
  fault : option nat;           (* [Some k]: the store fails after k more statements *)
  closed : bool                 (* db.end() has run *)
}.

Inductive outcome (A : Type) : Type :=
| Ok (a : A)
| Err (e : error).
Arguments Ok {A} a.
Arguments Err {A} e.

Definition M (A : Type) : Type := World -> outcome A * World.

Definition ret {A} (a : A) : M A := fun w => (Ok a, w).

Definition throw {A} (e : error) : M A := fun w => (Err e, w).

Definition bind {A B} (m : M A) (k : A -> M B) : M B :=
  fun w =>
    match m w with
    | (Ok a, w') => k a w'
    | (Err e, w') => (Err e, w')
    end.

Notation "x <- m ;; k" := (bind m (fun x => k))
  (at level 61, m at next level, right associativity).
Notation "m ;;; k" := (bind m (fun _ => k))
  (at level 61, right associativity).

Definition with_db (w : World) (d : Db) : World :=
  {| db := d; session := session w;
     failedLoginAttempts := failedLoginAttempts w;
     issued := issued w; fault := fault w; closed := closed w |}.

Definition with_session (w : World) (s : option Session) : World :=
  {| db := db w; session := s;
     failedLoginAttempts := failedLoginAttempts w;
     issued := issued w; fault := fault w; closed := closed w |}.

Definition with_attempts (w : World) (n : nat) : World :=
  {| db := db w; session := session w;
     failedLoginAttempts := n;
     issued := issued w; fault := fault w; closed := closed w |}.

Definition with_issue (w : World) (f : option nat) : World :=
  {| db := db w; session := session w;
     failedLoginAttempts := failedLoginAttempts w;
     issued := S (issued w); fault := f; closed := closed w |}.

(** Modelled from the spec: the connection object that [./model/db.js]
    exports, which atm.js imports.  [await db.execute(stmt, params)] runs
    the statement against the store, unless the connection is closed or the
    store fails at this statement (sections 5 and 7: a store-level failure
    surfaces as an error of the call), in which case the call throws and the
    store is left as it was. *)
Definition execute {A} (stmt : Db -> A * Db) : M A :=
  fun w =>
    if closed w then (Err StoreUnavailable, with_issue w (fault w))
    else
      match fault w with
      | Some O => (Err StoreUnavailable, with_issue w (Some O))
      | Some (S k) =>
          (Ok (fst (stmt (db w))), with_db (with_issue w (Some k)) (snd (stmt (db w))))
      | None =>
          (Ok (fst (stmt (db w))), with_db (with_issue w None) (snd (stmt (db w))))
      end.

(** [await db.end()] *)
Definition db_end (w : World) : World :=
  {| db := db w; session := session w;
     failedLoginAttempts := failedLoginAttempts w;
     issued := issued w; fault := fault w; closed := true |}.

(** [try { body } catch (err) { console.error(..., err.message) }
     finally { await db.end() }] *)
Definition try_finally {A} (body : M A) : M A :=
  fun w => (fst (body w), db_end (snd (body w))).

(** [const { ... } = rows[0]]: destructuring [undefined] throws. *)
Definition destructure {A} (rows : list A) : M A :=
  match rows with
  | [] => throw TypeError
  | r :: _ => ret r
  end.

(** session.js *)
Definition saveSession (data : Session) : M unit :=
  fun w => (Ok tt, with_session w (Some data)).

Definition getSession : M (option Session) :=
  fun w => (Ok (session w), w).

(** [failedLoginAttempts++] and [failedLoginAttempts = 0] *)
Definition failedLoginAttempts_incr : M unit :=
  fun w => (Ok tt, with_attempts w (S (failedLoginAttempts w))).

Definition failedLoginAttempts_reset : M unit :=
  fun w => (Ok tt, with_attempts w O).

(** [if (!session) throw Error(...)] *)
Definition require_session (s : option Session) : M Session :=
  match s with
  | None => throw NotAuthenticated
  | Some s => ret s
  end.

(** The row printed by [console.table] after login and check-balance. *)
Record AccountView : Type := mkView {
  view_id : Z;
  view_name : string;
  view_balance : Js.number
}.

(** The two rows printed after a transfer. *)
Record TransferView : Type := mkTransferView {
  tfout : Transaction;
  receiver_name : string;
  tfin : Transaction;
  sender_name : string
}.

Section Actions.

(** The two library functions the actions call: JavaScript's [Number] on a
    command-line string, and the Credential Service's check of a PIN
    against a stored hash (what the Promise of [bcrypt.compare] settles
    to). *)
Variable Number : string -> Js.number.
Variable verify : string -> string -> bool.

(** [bcrypt.compare(pin, hash)] without a callback returns a Promise. *)
Definition bcrypt_compare (pin hash : string) : Js.value :=
  Js.Promise (verify pin hash).

(** [isNaN(amountNum) || amountNum <= 0] *)
Definition bad_amount (amountNum : Js.number) : bool :=
  Js.isNaN amountNum || Js.le amountNum (Js.Fin 0).

(** atm.js, lines 93-155: the login action.  [pin] is [None] when the
    [-p] flag is absent, else the prompted answer.  [bcrypt.compare] is
    called without [await], so [match] is the Promise itself. *)
Definition login (name : string) (pin : option string) : M AccountView :=
  fun w =>
    if (3 <=? failedLoginAttempts w)%nat then (Err LockedOut, w)
    else
      try_finally
        (p <- match pin with
              | Some p => ret p
              | None => throw PinRequired
              end ;;
         accounts <- execute (select_accounts_by_name name) ;;
         if (List.length accounts <? 1)%nat then
           failedLoginAttempts_incr ;;; throw InvalidCredentials
         else
           a <- destructure accounts ;;
           let match_ := bcrypt_compare p (acc_pin a) in
           if negb (Js.truthy match_) then
             failedLoginAttempts_incr ;;; throw InvalidCredentials
           else
             failedLoginAttempts_reset ;;;
             saveSession {| session_id := acc_id a; session_name := acc_name a |} ;;;
             ret {| view_id := acc_id a; view_name := acc_name a;
                    view_balance := acc_balance a |}) w.

(** atm.js, lines 161-185: check-balance. *)
Definition check_balance : M AccountView :=
  try_finally
    (session <- getSession ;;
     s <- require_session session ;;
     accounts <- execute (select_accounts_by_id (session_id s)) ;;
     a <- destructure accounts ;;
     ret {| view_id := acc_id a; view_name := acc_name a;
            view_balance := acc_balance a |}).

(** atm.js, lines 191-257: deposit.  The inserted row carries the raw
    string [amount]. *)
Definition deposit (amount : string) : M Transaction :=
  try_finally
    (let amountNum := Number amount in
     session <- getSession ;;
     s <- require_session session ;;
     if bad_amount amountNum then throw InvalidAmount
     else
       accounts <- execute (select_accounts_by_id (session_id s)) ;;
       a <- destructure accounts ;;
       let newBalance := Js.add (acc_balance a) amountNum in
       execute (update_balance_by_id newBalance (session_id s)) ;;;
       insertId <- execute (insert_transaction (acc_id a) Store.deposit (PStr amount) None) ;;
       transactions <- execute (select_transactions_by_id insertId) ;;
       destructure transactions).

(** atm.js, lines 263-335: withdraw.  The balance update is keyed on the
    account's name. *)
Definition withdraw (amount : string) : M Transaction :=
  try_finally
    (let amountNum := Number amount in
     session <- getSession ;;
     s <- require_session session ;;
     if bad_amount amountNum then throw InvalidAmount
     else
       accounts <- execute (select_accounts_by_id (session_id s)) ;;
       a <- destructure accounts ;;
       if Js.gt amountNum (acc_balance a) then throw InsufficientFunds
       else
         let newBalance := Js.sub (acc_balance a) amountNum in
         execute (update_balance_by_name newBalance (acc_name a)) ;;;
         insertId <- execute (insert_transaction (acc_id a) Store.withdraw (PStr amount) None) ;;
         transactions <- execute (select_transactions_by_id insertId) ;;
         destructure transactions).

(** atm.js, lines 342-463: transfer; [to] is the [--to] option. *)
Definition transfer (amount : string) (to : Z) : M TransferView :=
  try_finally
    (session <- getSession ;;
     s <- require_session session ;;
     let amountNum := Number amount in
     if bad_amount amountNum then throw InvalidAmount
     else
       targetAccounts <- execute (select_accounts_by_id to) ;;
       if (List.length targetAccounts <? 1)%nat then throw TargetNotFound
       else
         target <- destructure targetAccounts ;;
         accounts <- execute (select_accounts_by_id (session_id s)) ;;
         a <- destructure accounts ;;
         if Js.gt amountNum (acc_balance a) then throw InsufficientFunds
         else
           let newSenderBalance := Js.sub (acc_balance a) amountNum in
           let newReceiverBalance := Js.add (acc_balance target) amountNum in
           execute (update_balance_by_id newSenderBalance (acc_id a)) ;;;
           transferOutId <-
             execute (insert_transaction (acc_id a) transfer_out (PNum amountNum)
                                         (Some (acc_id target))) ;;
           execute (update_balance_by_id newReceiverBalance (acc_id target)) ;;;
           transferInId <-
             execute (insert_transaction (acc_id target) transfer_in (PNum amountNum)
                                         (Some (acc_id a))) ;;
           transferOutTransactions <- execute (select_transactions_by_id transferOutId) ;;
           transferInTransactions <- execute (select_transactions_by_id transferInId) ;;
           out_row <- destructure transferOutTransactions ;;
           in_row <- destructure transferInTransactions ;;
           ret {| tfout := out_row; receiver_name := acc_name target;
                  tfin := in_row; sender_name := acc_name a |}).

(** One run of the program: [program.parseAsync()] dispatches a single
    command to its action. *)
Inductive Command : Type :=
| Login (name : string) (pin : option string)
| CheckBalance
| Deposit (amount : string)
| Withdraw (amount : string)
| Transfer (amount : string) (to : Z).

Definition action (c : Command) (w : World) : World :=
  match c with
  | Login name pin => snd (login name pin w)
  | CheckBalance => snd (check_balance w)
  | Deposit amount => snd (deposit amount w)
  | Withdraw amount => snd (withdraw amount w)
  | Transfer amount to => snd (transfer amount to w)
  end.

(** A new process over the durable state (store and session file): the
    counter starts at 0 ([let failedLoginAttempts = 0]), the connection is
    open, and [f] is the store's failure schedule during this run. *)
Definition spawn (w : World) (f : option nat) : World :=
  {| db := db w; session := session w; failedLoginAttempts := O;
     issued := O; fault := f; closed := false |}.

Definition invoke (cf : Command * option nat) (w : World) : World :=
  action (fst cf) (spawn w (snd cf)).

(** The worlds after each invocation of a sequence, in order. *)
Fixpoint history (cs : list (Command * option nat)) (w : World) : list World :=
  match cs with
  | [] => []
  | cf :: cs' => invoke cf w :: history cs' (invoke cf w)
  end.

(** Several login attempts made by one process, with their outcomes. *)
Fixpoint logins (attempts : list (string * option string)) (w : World)
  : list (outcome AccountView) * World :=
  match attempts with
  | [] => ([], w)
  | (name, pin) :: rest =>
      let r := login name pin w in
      let rs := logins rest (snd r) in
      (fst r :: fst rs, snd rs)
  end.

End Actions.

(** *** The vocabulary of the properties *)

(** An amount the specification does not count as positive: NaN, zero, a
    negative value, negative infinity. *)
Definition not_positive (n : Js.number) : Prop :=
  match n with
  | Js.NaN | Js.NegInf => True
  | Js.Fin z => z <= 0
  | Js.PosInf => False
  end.

(** [balance < 0] *)
Definition negative (b : Js.number) : bool := Js.lt b (Js.Fin 0).

Definition no_negative_balance (d : Db) : Prop :=
  Forall (fun a => negative (acc_balance a) = false) (accounts d).

Definition row_ok (a : Account) : Prop := negative (acc_balance a) = false.

(** [m] keeps the store invariant [I] on every exit, normal or not, and what
    it returns satisfies [Q]. *)
Definition keeps (I : Db -> Prop) {A} (m : M A) (Q : A -> Prop) : Prop :=
  forall w, I (db w) ->
    I (db (snd (m w))) /\ forall a, fst (m w) = Ok a -> Q a.

(** The store answers every statement of this run. *)
Definition responsive (w : World) : Prop :=
  closed w = false /\ fault w = None.

(** The writes of an operation, in the order of section 4.3 of the
    specification, as data: each is one of the UPDATE and INSERT statements
    of [Store]. *)
Inductive write : Type :=
| SetBalanceById (b : Js.number) (i : Z)
| SetBalanceByName (b : Js.number) (n : string)
| InsertRow (account_id : Z) (ty : TxType) (amount : param) (target_id : option Z).

Definition apply_write (d : Db) (wr : write) : Db :=
  match wr with
  | SetBalanceById b i => snd (update_balance_by_id b i d)
  | SetBalanceByName b n => snd (update_balance_by_name b n d)
  | InsertRow i ty amount target => snd (insert_transaction i ty amount target d)
  end.

Definition apply_writes (ws : list write) (d : Db) : Db :=
  fold_left apply_write ws d.

Definition deposit_writes (a : Account) (sid : Z) (amount : string)
           (amountNum : Js.number) : list write :=
  [ SetBalanceById (Js.add (acc_balance a) amountNum) sid;
    InsertRow (acc_id a) Store.deposit (PStr amount) None ].

Definition withdraw_writes (a : Account) (amount : string)
           (amountNum : Js.number) : list write :=
  [ SetBalanceByName (Js.sub (acc_balance a) amountNum) (acc_name a);
    InsertRow (acc_id a) Store.withdraw (PStr amount) None ].

Definition transfer_writes (a target : Account) (amountNum : Js.number) : list write :=
  [ SetBalanceById (Js.sub (acc_balance a) amountNum) (acc_id a);
    InsertRow (acc_id a) transfer_out (PNum amountNum) (Some (acc_id target));
    SetBalanceById (Js.add (acc_balance target) amountNum) (acc_id target);
    InsertRow (acc_id target) transfer_in (PNum amountNum) (Some (acc_id a)) ].

(** The writes that reach the store when it fails after [k] statements of a
    run that reads [reads] times before its first write. *)
Definition performed (f : option nat) (reads : nat) (ws : list write) : list write :=
  match f with
  | None => ws
  | Some k => firstn (k - reads) ws
  end.

(** The balance of the first account with the given id, as check-balance
    would show it. *)
Definition balance_of (i : Z) (d : Db) : option Js.number :=
  match fst (select_accounts_by_id i d) with
  | [] => None
  | a :: _ => Some (acc_balance a)
  end.

End Atm.

(* ------------------------------------------------------------------ *)
(** ** Concrete stores and worlds used by the examples *)

Module Scenario.
Import Js Store Atm.

(** A stand-in for the Credential Service in examples: the stored hash of a
    PIN is the PIN between brackets. *)
Definition verify_bracket (pin hash : string) : bool :=
  String.eqb ("[" ++ pin ++ "]")%string hash.

Definition john : Account :=
  {| acc_id := 1; acc_name := "john"; acc_pin := "[123456]"; acc_balance := Fin 100 |}.
Definition mary : Account :=
  {| acc_id := 2; acc_name := "mary"; acc_pin := "[654321]"; acc_balance := Fin 0 |}.
(** A second account registered under the name of the first. *)
Definition john' : Account :=
  {| acc_id := 3; acc_name := "john"; acc_pin := "[111111]"; acc_balance := Fin 500 |}.

Definition bank : Db :=
  {| accounts := [john; mary]; transactions := []; auto_increment := 1 |}.

Definition bank_two_johns : Db :=
  {| accounts := [john; mary; john']; transactions := []; auto_increment := 1 |}.

(** A fresh process over [d] with session file [s]. *)
Definition fresh (d : Db) (s : option Session) : World :=
  {| db := d; session := s; failedLoginAttempts := O; issued := O;
     fault := None; closed := false |}.

Definition as_john : option Session :=
  Some {| session_id := 1; session_name := "john" |}.

(** A session whose account is not in the store. *)
Definition as_ghost : option Session :=
  Some {| session_id := 7; session_name := "ghost" |}.

Definition with_fault (w : World) (f : option nat) : World :=
  {| db := db w; session := session w;
     failedLoginAttempts := failedLoginAttempts w;
     issued := issued w; fault := f; closed := closed w |}.

Definition locked (w : World) : World := with_attempts w 3.

End Scenario.

(* ------------------------------------------------------------------ *)
(** ** The register action and whole runs of the program *)

Module Program.
Import Store Atm.

(** [/^\d{6}$/.test(pin)]: the whole string is six decimal digits. *)
Fixpoint digits_exactly (n : nat) (s : string) : bool :=
  match n, s with
  | O, EmptyString => true
  | S n', String c r =>
      match Js.digit c with
      | Some _ => digits_exactly n' r
      | None => false
      end
  | _, _ => false
  end.

(** [pin.length !== 6 || !/^\d{6}$/.test(pin)].  A string is its sequence of
    bytes here; on a string of six digits, and only there, both readings of
    its length give 6. *)
Definition bad_pin (pin : string) : bool :=
  negb (String.length pin =? 6)%nat || negb (digits_exactly 6 pin).

(** Modelled from the spec: the id the store assigns to a new row of
    [accounts] (section 3: unique, assigned at creation).  Rows are never
    deleted, so it is one more than the largest id in the table. *)
Definition next_account_id (d : Db) : Z :=
  1 + fold_right Z.max 0 (map acc_id (accounts d)).

(** INSERT INTO accounts (name, pin, balance) VALUES (?, ?, ?) *)
Definition insert_account (name hashedPIN : string) (balance : Js.number)
           (d : Db) : Z * Db :=
  (next_account_id d,
   {| accounts :=
        accounts d ++
        [ {| acc_id := next_account_id d; acc_name := name;
             acc_pin := hashedPIN; acc_balance := balance |} ];
      transactions := transactions d;
      auto_increment := auto_increment d |}).

(** What the register action reports: its success message, one of the two
    errors only it throws, or the error of its statement. *)
Inductive registration : Type :=
| Registered            (* Your new account was created successfully! *)
| PinMissing            (* PIN is required to register a new account! *)
| PinFormat             (* PIN should be exactly a 6-digit numeric string. *)
| Refused (e : error).

Section Register.

(** [bcrypt.hash(String(pin), 10)], as this call settles. *)
Variable bcrypt_hash : string -> string.

(** atm.js, lines 45-85: the register action.  [pin] is [None] when the
    [-p] flag is absent, else the prompted answer. *)
Definition register (name : string) (pin : option string)
  : World -> registration * World :=
  fun w =>
    match pin with
    | None => (PinMissing, db_end w)
    | Some p =>
        if bad_pin p then (PinFormat, db_end w)
        else
          let hashedPIN := bcrypt_hash p in
          let r := try_finally (execute (insert_account name hashedPIN (Js.Fin 0))) w in
          (match fst r with
           | Ok _ => Registered
           | Err e => Refused e
           end, snd r)
    end.

Variable Number : string -> Js.number.
Variable verify : string -> string -> bool.

(** One run of the program, register included. *)
Inductive Invocation : Type :=
| Register (name : string) (pin : option string)
| Engine (c : Command).

Definition perform (i : Invocation) (w : World) : World :=
  match i with
  | Register name pin => snd (register name pin w)
  | Engine c => action Number verify c w
  end.

(** A sequence of runs, each in a process of its own with its own failure
    schedule of the store; the result is the world after the last. *)
Definition runs (invs : list (Invocation * option nat)) (w : World) : World :=
  fold_left (fun w' i => perform (fst i) (spawn w' (snd i))) invs w.

End Register.

(** *** The vocabulary of the properties *)

(** [m] leaves the part [f] of the world as it found it, on every exit. *)
Definition leaves {B A} (f : World -> B) (m : M A) : Prop :=
  forall w, f (snd (m w)) = f w.

(** A property of the store that none of the four writing statements can
    break, whatever values they are given. *)
Definition stable (I : Db -> Prop) : Prop :=
  (forall b i d, I d -> I (snd (update_balance_by_id b i d))) /\
  (forall b n d, I d -> I (snd (update_balance_by_name b n d))) /\
  (forall i ty amount target d, I d -> I (snd (insert_transaction i ty amount target d))) /\
  (forall n h b d, I d -> I (snd (insert_account n h b d))).

(** The columns of an account that say whose it is. *)
Definition identity (a : Account) : Z * string * string :=
  (acc_id a, acc_name a, acc_pin a).

(** [l] starts with [l0]. *)
Definition extends {A} (l0 l : list A) : Prop := exists more, l = l0 ++ more.

(** The rows a SELECT by id finds. *)
Definition rows_of (i : Z) (d : Db) : list Account :=
  fst (select_accounts_by_id i d).

(** A PIN of exactly six decimal digits. *)
Definition six_digit_pin (pin : string) : Prop :=
  String.length pin = 6%nat /\
  Forall (fun c => Js.digit c <> None) (list_ascii_of_string pin).

(** A stand-in for [bcrypt.hash] in examples, the one [verify_bracket]
    checks against. *)
Definition hash_bracket (pin : string) : string := ("[" ++ pin ++ "]")%string.

(** The account a successful register adds to store [d]. *)
Definition new_account (d : Db) (name hashedPIN : string) : Account :=
  {| acc_id := next_account_id d; acc_name := name; acc_pin := hashedPIN;
     acc_balance := Js.Fin 0 |}.

End Program.

(* ------------------------------------------------------------------ *)
(** ** Reasoning about runs in [M] *)

Module Run.
Import Js Store Atm.

(** A run of [bind] that returned went through both halves. *)
Lemma bind_inv {A B} (m : M A) (k : A -> M B) w b w' :
  bind m k w = (Ok b, w') ->
  exists a w1, m w = (Ok a, w1) /\ k a w1 = (Ok b, w').
Proof.
  unfold bind. destruct (m w) as [[a | e] w1]; intros H.
  - exists a, w1. split; [reflexivity | exact H].
  - discriminate H.
Qed.

Lemma try_finally_inv {A} (body : M A) w a w' :
  try_finally body w = (Ok a, w') ->
  exists w1, body w = (Ok a, w1) /\ w' = db_end w1.
Proof.
  unfold try_finally. destruct (body w) as [r w1]; simpl.
  intros H. inversion H; subst. exists w1. split; reflexivity.
Qed.

(** A statement that returned ran against the store of the moment and
    touched nothing else that outlives the run. *)
Lemma execute_inv {A} (stmt : Db -> A * Db) w a w' :
  execute stmt w = (Ok a, w') ->
  a = fst (stmt (db w)) /\ db w' = snd (stmt (db w)) /\ session w' = session w.
Proof.
  unfold execute. destruct (closed w); [discriminate |].
  destruct (fault w) as [[| k] |]; intros H; inversion H; subst; simpl;
    repeat split; auto.
Qed.

Lemma destructure_inv {A} (rows : list A) w r w' :
  destructure rows w = (Ok r, w') ->
  w' = w /\ exists rest, rows = r :: rest.
Proof.
  destruct rows as [| x rest]; simpl; intros H; inversion H; subst.
  split; [reflexivity | exists rest; reflexivity].
Qed.

Lemma require_session_inv o w s w' :
  require_session o w = (Ok s, w') -> o = Some s /\ w' = w.
Proof. destruct o; simpl; intros H; inversion H; auto. Qed.

Lemma getSession_inv w o w' :
  getSession w = (Ok o, w') -> o = session w /\ w' = w.
Proof. unfold getSession. intros H; inversion H; auto. Qed.

(** The rows a SELECT by id returns carry that id and are rows of the table. *)
Lemma select_accounts_by_id_hd i d a rest :
  fst (select_accounts_by_id i d) = a :: rest ->
  acc_id a = i /\ In a (accounts d).
Proof.
  simpl. intros H.
  assert (Hin : In a (filter (fun a0 => acc_id a0 =? i) (accounts d)))
    by (rewrite H; left; reflexivity).
  apply filter_In in Hin. destruct Hin as [Hin Heq].
  apply Z.eqb_eq in Heq. split; assumption.
Qed.

Lemma destructure_hit {A} (f : A -> bool) l x w :
  In x l -> f x = true ->
  exists r, destructure (filter f l) w = (Ok r, w).
Proof.
  intros Hin Hf. destruct (filter f l) as [| r rest] eqn:E.
  - assert (H : In x (filter f l)) by (apply filter_In; split; assumption).
    rewrite E in H. destruct H.
  - exists r. reflexivity.
Qed.

(** The SELECT by [insertId] that follows an INSERT finds a row. *)
Lemma destructure_last {A} (f : A -> bool) l x w :
  f x = true -> exists r, destructure (filter f (l ++ [x])) w = (Ok r, w).
Proof.
  intros Hf. apply destructure_hit with (x := x); [| exact Hf].
  apply in_or_app. right. left. reflexivity.
Qed.

Lemma destructure_before_last {A} (f : A -> bool) l x y w :
  f x = true -> exists r, destructure (filter f ((l ++ [x]) ++ [y])) w = (Ok r, w).
Proof.
  intros Hf. apply destructure_hit with (x := x); [| exact Hf].
  apply in_or_app. left. apply in_or_app. right. left. reflexivity.
Qed.

Lemma bad_amount_iff n : bad_amount n = true <-> not_positive n.
Proof.
  unfold bad_amount, Js.le. destruct n as [| | z |]; simpl; try tauto.
  - rewrite orb_true_iff, Z.ltb_lt, Z.eqb_eq. lia.
  - split; [discriminate | contradiction].
Qed.

(** Peel one step off a run that returned. *)
Tactic Notation "unbind" hyp(H) "as" ident(a) ident(w1) ident(H1) :=
  apply bind_inv in H; destruct H as (a & w1 & H1 & H).

Tactic Notation "unframe" hyp(H) :=
  let w1 := fresh "w" in let E := fresh "E" in
  apply try_finally_inv in H; destruct H as (w1 & H & E); subst.

(** Expose the fields of a world. *)
Ltac open_world w :=
  let d := fresh "d" in let ses := fresh "ses" in let n := fresh "n" in
  let i := fresh "i" in let f := fresh "f" in let c := fresh "c" in
  destruct w as [d ses n i f c]; unfold responsive in *; simpl in *.

(** Unfold an action down to the statements it issues. *)
Ltac run_action :=
  unfold login, check_balance, deposit, withdraw, transfer, try_finally, bind,
    getSession, require_session, execute; simpl.

(** Resolve the lookup of the row just inserted. *)
Ltac find_row :=
  match goal with
  | |- context [destructure (filter ?f ?l) ?w] =>
      let r := fresh "r" in let E := fresh "E" in
      assert (exists r, destructure (filter f l) w = (Ok r, w)) as [r E];
      [ first [ apply destructure_last; simpl; apply Z.eqb_refl
              | apply destructure_before_last; simpl; apply Z.eqb_refl ]
      | rewrite E; simpl ]
  end.

(** Whatever that lookup returns, the store is the same. *)
Ltac any_row :=
  repeat match goal with
         | |- context [destructure (filter ?f ?l)] => destruct (filter f l); simpl
         end.

End Run.

(* ------------------------------------------------------------------ *)
(** ** Authentication: the login action *)

Module Auth.
Import Js Store Atm Run Scenario.

(** While the counter is below 3 and the store answers, a login under a name
    that exists returns, whatever PIN was typed and whatever the Credential
    Service would say of it: the test [!match] is made on a Promise. *)
Lemma login_returns_for_any_pin verify name p w a rest :
  (failedLoginAttempts w < 3)%nat -> responsive w ->
  fst (select_accounts_by_name name (db w)) = a :: rest ->
  fst (login verify name (Some p) w) =
    Ok {| view_id := acc_id a; view_name := acc_name a; view_balance := acc_balance a |} /\
  failedLoginAttempts (snd (login verify name (Some p) w)) = O /\
  session (snd (login verify name (Some p) w)) =
    Some {| session_id := acc_id a; session_name := acc_name a |} /\
  db (snd (login verify name (Some p) w)) = db w.
Proof.
  intros Hn [Hc Hf] Ha. open_world w. subst.
  apply Nat.leb_gt in Hn. unfold login. cbn [failedLoginAttempts]. rewrite Hn.
  run_action. rewrite Ha. simpl. repeat split; reflexivity.
Qed.

(** A login that returns leaves the counter at 0. *)
Lemma login_ok_resets verify name pin w v w' :
  login verify name pin w = (Ok v, w') -> failedLoginAttempts w' = O.
Proof.
  unfold login. destruct (3 <=? failedLoginAttempts w)%nat; [discriminate |].
  intros H. unframe H.
  unbind H as p w1 Hp. unbind H as rows w2 Hsel.
  destruct (List.length rows <? 1)%nat.
  - unbind H as u w3 Hincr. discriminate H.
  - unbind H as a w3 Hrow. simpl in H.
    unbind H as u w4 Hreset. unbind H as u' w5 Hsave.
    unfold failedLoginAttempts_reset in Hreset. unfold saveSession in Hsave.
    unfold ret in H. inversion Hreset; inversion Hsave; inversion H; subst.
    reflexivity.
Qed.

(** In the LOCKED state the action returns before its [try] block: the world
    is the one it started from, so no statement was issued and the
    connection was not even closed. *)
Lemma login_locked verify name pin w :
  (3 <= failedLoginAttempts w)%nat -> login verify name pin w = (Err LockedOut, w).
Proof.
  intros H. apply Nat.leb_le in H. unfold login. rewrite H. reflexivity.
Qed.

Lemma logins_locked verify attempts w :
  (3 <= failedLoginAttempts w)%nat ->
  logins verify attempts w = (map (fun _ => Err LockedOut) attempts, w).
Proof.
  intros H. induction attempts as [| [name pin] rest IH]; simpl.
  - reflexivity.
  - rewrite (login_locked verify name pin w H). simpl. rewrite IH. reflexivity.
Qed.

(** On a closed connection a login attempt below the lockout threshold fails
    at its SELECT and changes neither the counter nor the connection. *)
Lemma login_on_closed_connection verify name pin w :
  closed w = true ->
  failedLoginAttempts (snd (login verify name pin w)) = failedLoginAttempts w /\
  closed (snd (login verify name pin w)) = true.
Proof.
  intros Hc. unfold login.
  destruct (3 <=? failedLoginAttempts w)%nat; [split; [reflexivity | exact Hc] |].
  open_world w. subst. destruct pin; run_action; split; reflexivity.
Qed.

(** The first login attempt of a process closes the connection and counts at
    most one failure. *)
Lemma first_login_of_a_process verify name pin w :
  failedLoginAttempts w = O ->
  (failedLoginAttempts (snd (login verify name pin w)) <= 1)%nat /\
  closed (snd (login verify name pin w)) = true.
Proof.
  intros Hn. unfold login. rewrite Hn. simpl.
  open_world w. subst. destruct pin as [p |]; run_action; [| split; auto].
  destruct c; simpl; [split; auto |].
  destruct f as [[| k] |]; simpl; [split; auto | |];
    (destruct (filter _ _) as [| a rest]; simpl; split; auto).
Qed.

Lemma logins_on_closed_connection verify attempts : forall w,
  closed w = true ->
  failedLoginAttempts (snd (logins verify attempts w)) = failedLoginAttempts w.
Proof.
  induction attempts as [| [name pin] rest IH]; intros w Hc; simpl.
  - reflexivity.
  - destruct (login_on_closed_connection verify name pin w Hc) as [Hn Hc'].
    rewrite IH by exact Hc'. exact Hn.
Qed.

(** A process starts with the counter at 0 and each action ends with
    [db.end()], so the attempts of one process never take the counter to the
    lockout threshold. *)
Remark one_process_stays_open verify attempts w f :
  (failedLoginAttempts (snd (logins verify attempts (spawn w f))) <= 1)%nat.
Proof.
  destruct attempts as [| [name pin] rest]; simpl; [lia |].
  destruct (first_login_of_a_process verify name pin (spawn w f) eq_refl) as [Hn Hc].
  rewrite logins_on_closed_connection by exact Hc. exact Hn.
Qed.

(** Claim C1, at a failing input.  Account john is stored with the hash of
    123456.  A login as john with PIN 000000, which does not verify against
    that hash, returns john's account view; the session file then names john
    and the failure counter is 0, not 1. *)
Theorem login_accepts_a_wrong_pin :
  verify_bracket "000000" (acc_pin john) = false /\
  login verify_bracket "john" (Some "000000") (fresh bank None) =
    (Ok {| view_id := 1; view_name := "john"; view_balance := Fin 100 |},
     {| db := bank; session := as_john; failedLoginAttempts := O;
        issued := 1; fault := None; closed := true |}).
Proof. split; reflexivity. Qed.

(** Claim C8.  Once the failure counter is 3 or more, every login attempt of
    the process, one or many in a row and whatever the credentials, fails
    with LockedOut and leaves the world exactly as it was: no statement is
    issued to the store.  And a login that succeeds leaves the counter at 0. *)
Theorem lockout_rejects_every_login verify w :
  ((3 <= failedLoginAttempts w)%nat ->
   (forall name pin, login verify name pin w = (Err LockedOut, w)) /\
   (forall attempts,
      logins verify attempts w = (map (fun _ => Err LockedOut) attempts, w))) /\
  (forall name pin v w',
     login verify name pin w = (Ok v, w') -> failedLoginAttempts w' = O).
Proof.
  split.
  - intros H. split.
    + intros name pin. apply login_locked, H.
    + intros attempts. apply logins_locked, H.
  - intros name pin v w'. apply login_ok_resets.
Qed.

Lemma lockout_rejects_every_login_witness :
  (3 <= failedLoginAttempts (locked (fresh bank None)))%nat /\
  login verify_bracket "john" (Some "123456") (locked (fresh bank None)) =
    (Err LockedOut, locked (fresh bank None)) /\
  issued (snd (login verify_bracket "john" (Some "123456") (locked (fresh bank None)))) = O /\
  failedLoginAttempts
    (snd (login verify_bracket "john" (Some "123456")
            (with_attempts (fresh bank None) 2))) = O.
Proof.
  assert (L : (3 <= failedLoginAttempts (locked (fresh bank None)))%nat)
    by (simpl; lia).
  split; [exact L |]. split; [| split].
  - exact (proj1 (proj1 (lockout_rejects_every_login verify_bracket
                           (locked (fresh bank None))) L) "john" (Some "123456")).
  - rewrite (proj1 (proj1 (lockout_rejects_every_login verify_bracket
                             (locked (fresh bank None))) L) "john" (Some "123456")).
    reflexivity.
  - apply (proj2 (lockout_rejects_every_login verify_bracket
                    (with_attempts (fresh bank None) 2))
             "john" (Some "123456")
             {| view_id := 1; view_name := "john"; view_balance := Fin 100 |}).
    reflexivity.
Defined.

End Auth.

(* ------------------------------------------------------------------ *)
(** ** Validation: what is checked before the first write *)

Module Validation.
Import Js Store Atm Run Scenario.

Lemma deposit_bad_amount Number amount w s :
  session w = Some s -> bad_amount (Number amount) = true ->
  deposit Number amount w = (Err InvalidAmount, db_end w).
Proof.
  intros Hs Hb. run_action. rewrite Hs. simpl. rewrite Hb. reflexivity.
Qed.

Lemma withdraw_bad_amount Number amount w s :
  session w = Some s -> bad_amount (Number amount) = true ->
  withdraw Number amount w = (Err InvalidAmount, db_end w).
Proof.
  intros Hs Hb. run_action. rewrite Hs. simpl. rewrite Hb. reflexivity.
Qed.

Lemma transfer_bad_amount Number amount to w s :
  session w = Some s -> bad_amount (Number amount) = true ->
  transfer Number amount to w = (Err InvalidAmount, db_end w).
Proof.
  intros Hs Hb. run_action. rewrite Hs. simpl. rewrite Hb. reflexivity.
Qed.

Lemma withdraw_insufficient Number amount w s a rest :
  responsive w -> session w = Some s ->
  bad_amount (Number amount) = false ->
  fst (select_accounts_by_id (session_id s) (db w)) = a :: rest ->
  Js.gt (Number amount) (acc_balance a) = true ->
  fst (withdraw Number amount w) = Err InsufficientFunds /\
  db (snd (withdraw Number amount w)) = db w.
Proof.
  intros [Hc Hf] Hs Hb Ha Hg. open_world w. subst. run_action.
  rewrite Hb. simpl. rewrite Ha. simpl. rewrite Hg. simpl. split; reflexivity.
Qed.

Lemma transfer_insufficient Number amount to w s a rest target rest' :
  responsive w -> session w = Some s ->
  bad_amount (Number amount) = false ->
  fst (select_accounts_by_id (session_id s) (db w)) = a :: rest ->
  Js.gt (Number amount) (acc_balance a) = true ->
  fst (select_accounts_by_id to (db w)) = target :: rest' ->
  fst (transfer Number amount to w) = Err InsufficientFunds /\
  db (snd (transfer Number amount to w)) = db w.
Proof.
  intros [Hc Hf] Hs Hb Ha Hg Ht. open_world w. subst. run_action.
  rewrite Hb. simpl. rewrite Ht. simpl. rewrite Ha. simpl. rewrite Hg. simpl.
  split; reflexivity.
Qed.

(** Claim C5.  With a session, a store that answers, an amount that passed
    the amount check and the session's account in the store: a withdraw of
    more than the account's balance fails with InsufficientFunds and leaves
    the store (balances and transaction rows) as it was; so does a transfer
    to an existing target, against the sender's balance. *)
Theorem overdraft_is_refused Number amount to w s a rest :
  responsive w -> session w = Some s ->
  bad_amount (Number amount) = false ->
  fst (select_accounts_by_id (session_id s) (db w)) = a :: rest ->
  Js.gt (Number amount) (acc_balance a) = true ->
  (fst (withdraw Number amount w) = Err InsufficientFunds /\
   db (snd (withdraw Number amount w)) = db w) /\
  (forall target rest',
     fst (select_accounts_by_id to (db w)) = target :: rest' ->
     fst (transfer Number amount to w) = Err InsufficientFunds /\
     db (snd (transfer Number amount to w)) = db w).
Proof.
  intros Hr Hs Hb Ha Hg. split.
  - eapply withdraw_insufficient; eassumption.
  - intros target rest' Ht. eapply transfer_insufficient; eassumption.
Qed.

(** The scenario of section 8: the balance is 100 and the amount 150. *)
Lemma overdraft_is_refused_witness :
  Js.gt (NumberOfLiteral "150") (acc_balance john) = true /\
  (fst (withdraw NumberOfLiteral "150" (fresh bank as_john)) = Err InsufficientFunds /\
   db (snd (withdraw NumberOfLiteral "150" (fresh bank as_john))) = bank) /\
  (fst (transfer NumberOfLiteral "150" 2 (fresh bank as_john)) = Err InsufficientFunds /\
   db (snd (transfer NumberOfLiteral "150" 2 (fresh bank as_john))) = bank).
Proof.
  pose proof (overdraft_is_refused NumberOfLiteral "150" 2 (fresh bank as_john)
                {| session_id := 1; session_name := "john" |} john []
                (conj eq_refl eq_refl) eq_refl eq_refl eq_refl eq_refl) as [Hw Ht].
  split; [reflexivity |]. split; [exact Hw |].
  exact (Ht mary [] eq_refl).
Defined.

(** Claim C6, as the code has it.  With a session, an amount that is NaN,
    zero or negative (negative infinity included) makes deposit, withdraw and
    transfer fail with InvalidAmount before any statement is issued: the
    world is the one the action started from, with the connection closed. *)
Theorem non_positive_amount_is_refused Number amount to w s :
  session w = Some s -> not_positive (Number amount) ->
  deposit Number amount w = (Err InvalidAmount, db_end w) /\
  withdraw Number amount w = (Err InvalidAmount, db_end w) /\
  transfer Number amount to w = (Err InvalidAmount, db_end w).
Proof.
  intros Hs Hn. apply bad_amount_iff in Hn. repeat split.
  - eapply deposit_bad_amount; eassumption.
  - eapply withdraw_bad_amount; eassumption.
  - eapply transfer_bad_amount; eassumption.
Qed.

Lemma non_positive_amount_is_refused_witness :
  not_positive (NumberOfLiteral "-5") /\
  deposit NumberOfLiteral "-5" (fresh bank as_john) =
    (Err InvalidAmount, db_end (fresh bank as_john)) /\
  withdraw NumberOfLiteral "-5" (fresh bank as_john) =
    (Err InvalidAmount, db_end (fresh bank as_john)) /\
  transfer NumberOfLiteral "-5" 2 (fresh bank as_john) =
    (Err InvalidAmount, db_end (fresh bank as_john)).
Proof.
  assert (Hn : not_positive (NumberOfLiteral "-5")) by (simpl; lia).
  split; [exact Hn |].
  exact (non_positive_amount_is_refused NumberOfLiteral "-5" 2 (fresh bank as_john)
           {| session_id := 1; session_name := "john" |} eq_refl Hn).
Defined.

(** Claim C6 as stated fails on an infinite amount.  [Infinity] is not NaN
    and is not [<= 0], so it passes the amount check; a withdraw and a
    transfer of it then fail with InsufficientFunds, not InvalidAmount, and a
    deposit of it is not refused by the action at all. *)
Lemma infinite_amount_passes_the_check :
  NumberOfLiteral "Infinity" = PosInf /\
  bad_amount (NumberOfLiteral "Infinity") = false /\
  fst (withdraw NumberOfLiteral "Infinity" (fresh bank as_john)) = Err InsufficientFunds /\
  fst (transfer NumberOfLiteral "Infinity" 2 (fresh bank as_john)) = Err InsufficientFunds /\
  fst (deposit NumberOfLiteral "Infinity" (fresh bank as_john)) =
    Ok {| tx_id := 1; tx_account_id := 1; tx_type := Store.deposit;
          tx_amount := PStr "Infinity"; tx_target_id := None |}.
Proof. repeat split; reflexivity. Qed.

(** Claim C9, at a failing input.  The session file names account 7, which
    the store does not hold.  check-balance, deposit, withdraw and transfer
    (to the existing account 2) each end in the TypeError of destructuring
    [accounts[0]], reported through the same [catch] as any other error; the
    store is left as it was. *)
Theorem missing_account_is_a_type_error :
  fst (select_accounts_by_id 7 bank) = [] /\
  (fst (check_balance (fresh bank as_ghost)) = Err TypeError /\
   db (snd (check_balance (fresh bank as_ghost))) = bank) /\
  (fst (deposit NumberOfLiteral "10" (fresh bank as_ghost)) = Err TypeError /\
   db (snd (deposit NumberOfLiteral "10" (fresh bank as_ghost))) = bank) /\
  (fst (withdraw NumberOfLiteral "10" (fresh bank as_ghost)) = Err TypeError /\
   db (snd (withdraw NumberOfLiteral "10" (fresh bank as_ghost))) = bank) /\
  (fst (transfer NumberOfLiteral "10" 2 (fresh bank as_ghost)) = Err TypeError /\
   db (snd (transfer NumberOfLiteral "10" 2 (fresh bank as_ghost))) = bank).
Proof. repeat split; reflexivity. Qed.

End Validation.

(* ------------------------------------------------------------------ *)
(** ** What a successful operation has done *)

Module Logging.
Import Js Store Atm Run Scenario.

(** A deposit that returned passed every check and applied both writes. *)
Lemma deposit_ok_inv Number amount w t w' :
  deposit Number amount w = (Ok t, w') ->
  exists s a rest,
    session w = Some s /\
    bad_amount (Number amount) = false /\
    fst (select_accounts_by_id (session_id s) (db w)) = a :: rest /\
    db w' = apply_writes (deposit_writes a (session_id s) amount (Number amount)) (db w).
Proof.
  intros H. unfold deposit in H. unframe H.
  unbind H as o w1 Hget. apply getSession_inv in Hget. destruct Hget as [-> ->].
  unbind H as s w1 Hreq. apply require_session_inv in Hreq. destruct Hreq as [Hs ->].
  destruct (bad_amount (Number amount)) eqn:Hb; [discriminate H |].
  unbind H as rows w1 Hsel. apply execute_inv in Hsel. destruct Hsel as (-> & D1 & _).
  unbind H as a w2 Hrow. apply destructure_inv in Hrow. destruct Hrow as [-> [rest Hrows]].
  unbind H as u w3 Hupd. apply execute_inv in Hupd. destruct Hupd as (_ & D3 & _).
  unbind H as insertId w4 Hins. apply execute_inv in Hins. destruct Hins as (-> & D4 & _).
  unbind H as txs w5 Hsel2. apply execute_inv in Hsel2. destruct Hsel2 as (_ & D5 & _).
  apply destructure_inv in H. destruct H as [-> _].
  exists s, a, rest. repeat split; auto.
  simpl in *. rewrite D5, D4, D3, D1. reflexivity.
Qed.

Lemma withdraw_ok_inv Number amount w t w' :
  withdraw Number amount w = (Ok t, w') ->
  exists s a rest,
    session w = Some s /\
    bad_amount (Number amount) = false /\
    fst (select_accounts_by_id (session_id s) (db w)) = a :: rest /\
    Js.gt (Number amount) (acc_balance a) = false /\
    db w' = apply_writes (withdraw_writes a amount (Number amount)) (db w).
Proof.
  intros H. unfold withdraw in H. unframe H.
  unbind H as o w1 Hget. apply getSession_inv in Hget. destruct Hget as [-> ->].
  unbind H as s w1 Hreq. apply require_session_inv in Hreq. destruct Hreq as [Hs ->].
  destruct (bad_amount (Number amount)) eqn:Hb; [discriminate H |].
  unbind H as rows w1 Hsel. apply execute_inv in Hsel. destruct Hsel as (-> & D1 & _).
  unbind H as a w2 Hrow. apply destructure_inv in Hrow. destruct Hrow as [-> [rest Hrows]].
  destruct (Js.gt (Number amount) (acc_balance a)) eqn:Hg; [discriminate H |].
  unbind H as u w3 Hupd. apply execute_inv in Hupd. destruct Hupd as (_ & D3 & _).
  unbind H as insertId w4 Hins. apply execute_inv in Hins. destruct Hins as (-> & D4 & _).
  unbind H as txs w5 Hsel2. apply execute_inv in Hsel2. destruct Hsel2 as (_ & D5 & _).
  apply destructure_inv in H. destruct H as [-> _].
  exists s, a, rest. repeat split; auto.
  simpl in *. rewrite D5, D4, D3, D1. reflexivity.
Qed.

Lemma transfer_ok_inv Number amount to w v w' :
  transfer Number amount to w = (Ok v, w') ->
  exists s a rest target rest',
    session w = Some s /\
    bad_amount (Number amount) = false /\
    fst (select_accounts_by_id to (db w)) = target :: rest' /\
    fst (select_accounts_by_id (session_id s) (db w)) = a :: rest /\
    Js.gt (Number amount) (acc_balance a) = false /\
    db w' = apply_writes (transfer_writes a target (Number amount)) (db w).
Proof.
  intros H. unfold transfer in H. unframe H.
  unbind H as o w1 Hget. apply getSession_inv in Hget. destruct Hget as [-> ->].
  unbind H as s w1 Hreq. apply require_session_inv in Hreq. destruct Hreq as [Hs ->].
  destruct (bad_amount (Number amount)) eqn:Hb; [discriminate H |].
  unbind H as trows w1 Htsel. apply execute_inv in Htsel. destruct Htsel as (-> & D0 & _).
  destruct (List.length _ <? 1)%nat; [discriminate H |].
  unbind H as target w2 Htrow. apply destructure_inv in Htrow.
  destruct Htrow as [-> [rest' Ht]].
  unbind H as rows w2 Hsel. apply execute_inv in Hsel. destruct Hsel as (-> & D1 & _).
  unbind H as a w3 Hrow. apply destructure_inv in Hrow. destruct Hrow as [-> [rest Hrows]].
  destruct (Js.gt (Number amount) (acc_balance a)) eqn:Hg; [discriminate H |].
  unbind H as u w4 Hupd. apply execute_inv in Hupd. destruct Hupd as (_ & D3 & _).
  unbind H as outId w5 Hins. apply execute_inv in Hins. destruct Hins as (-> & D4 & _).
  unbind H as u' w6 Hupd'. apply execute_inv in Hupd'. destruct Hupd' as (_ & D5 & _).
  unbind H as inId w7 Hins'. apply execute_inv in Hins'. destruct Hins' as (-> & D6 & _).
  unbind H as otx w8 Hs1. apply execute_inv in Hs1. destruct Hs1 as (_ & D7 & _).
  unbind H as itx w9 Hs2. apply execute_inv in Hs2. destruct Hs2 as (_ & D8 & _).
  unbind H as orow w10 Hd1. apply destructure_inv in Hd1. destruct Hd1 as [-> _].
  unbind H as irow w11 Hd2. apply destructure_inv in Hd2. destruct Hd2 as [-> _].
  inversion H; subst.
  exists s, a, rest, target, rest'. repeat split; auto.
  - simpl in *. rewrite D0 in Hrows. exact Hrows.
  - simpl in *. rewrite D8, D7, D6, D5, D4, D3, D1, D0. reflexivity.
Qed.

(** With a store that answers, the three operations do return once their
    checks pass. *)
Lemma deposit_returns Number amount w s a rest :
  responsive w -> session w = Some s ->
  bad_amount (Number amount) = false ->
  fst (select_accounts_by_id (session_id s) (db w)) = a :: rest ->
  exists t, fst (deposit Number amount w) = Ok t.
Proof.
  intros [Hc Hf] Hs Hb Ha. open_world w. subst. run_action.
  rewrite Hb. simpl. rewrite Ha. simpl. find_row. eexists; reflexivity.
Qed.

Lemma withdraw_returns Number amount w s a rest :
  responsive w -> session w = Some s ->
  bad_amount (Number amount) = false ->
  fst (select_accounts_by_id (session_id s) (db w)) = a :: rest ->
  Js.gt (Number amount) (acc_balance a) = false ->
  exists t, fst (withdraw Number amount w) = Ok t.
Proof.
  intros [Hc Hf] Hs Hb Ha Hg. open_world w. subst. run_action.
  rewrite Hb. simpl. rewrite Ha. simpl. rewrite Hg. simpl. find_row.
  eexists; reflexivity.
Qed.

Lemma transfer_returns Number amount to w s a rest target rest' :
  responsive w -> session w = Some s ->
  bad_amount (Number amount) = false ->
  fst (select_accounts_by_id to (db w)) = target :: rest' ->
  fst (select_accounts_by_id (session_id s) (db w)) = a :: rest ->
  Js.gt (Number amount) (acc_balance a) = false ->
  exists v, fst (transfer Number amount to w) = Ok v.
Proof.
  intros [Hc Hf] Hs Hb Ht Ha Hg. open_world w. subst. run_action.
  rewrite Hb. simpl. rewrite Ht. simpl. rewrite Ha. simpl. rewrite Hg. simpl.
  find_row. find_row. eexists; reflexivity.
Qed.

(** Claim C7.  A deposit or a withdraw that returns has appended exactly one
    row to [transactions]: it is on the session's account, of the
    operation's type, with the amount that was supplied and no target.  A
    transfer that returns has appended exactly two rows: a transfer_out row
    on the session's account with the target as [target_id], then a
    transfer_in row on the target with the session's account as
    [target_id], both with the amount of the transfer.  And the three
    operations do return: with a session whose account the store holds, an
    amount that passes the amount check and a store that answers, a deposit
    returns, a withdraw of no more than the balance returns, and so does a
    transfer of no more than the balance to an id the store holds. *)
Theorem success_appends_matching_rows Number w :
  (forall amount t w',
     deposit Number amount w = (Ok t, w') ->
     exists s, session w = Some s /\
       transactions (db w') =
         transactions (db w) ++
         [ mkTransaction (auto_increment (db w)) (session_id s)
                         Store.deposit (PStr amount) None ]) /\
  (forall amount t w',
     withdraw Number amount w = (Ok t, w') ->
     exists s, session w = Some s /\
       transactions (db w') =
         transactions (db w) ++
         [ mkTransaction (auto_increment (db w)) (session_id s)
                         Store.withdraw (PStr amount) None ]) /\
  (forall amount to v w',
     transfer Number amount to w = (Ok v, w') ->
     exists s, session w = Some s /\
       transactions (db w') =
         transactions (db w) ++
         [ mkTransaction (auto_increment (db w)) (session_id s)
                         transfer_out (PNum (Number amount)) (Some to);
           mkTransaction (auto_increment (db w) + 1) to
                         transfer_in (PNum (Number amount)) (Some (session_id s)) ]) /\
  (forall amount to s a rest,
     responsive w -> session w = Some s ->
     bad_amount (Number amount) = false ->
     fst (select_accounts_by_id (session_id s) (db w)) = a :: rest ->
     (exists t, fst (deposit Number amount w) = Ok t) /\
     (Js.gt (Number amount) (acc_balance a) = false ->
      (exists t, fst (withdraw Number amount w) = Ok t) /\
      (forall target rest',
         fst (select_accounts_by_id to (db w)) = target :: rest' ->
         exists v, fst (transfer Number amount to w) = Ok v))).
Proof.
  split; [| split; [| split]].
  - intros amount t w' H.
    destruct (deposit_ok_inv _ _ _ _ _ H) as (s & a & rest & Hs & _ & Ha & ->).
    apply select_accounts_by_id_hd in Ha. destruct Ha as [Hid _].
    exists s. split; [exact Hs |]. simpl. rewrite Hid. reflexivity.
  - intros amount t w' H.
    destruct (withdraw_ok_inv _ _ _ _ _ H) as (s & a & rest & Hs & _ & Ha & _ & ->).
    apply select_accounts_by_id_hd in Ha. destruct Ha as [Hid _].
    exists s. split; [exact Hs |]. simpl. rewrite Hid. reflexivity.
  - intros amount to v w' H.
    destruct (transfer_ok_inv _ _ _ _ _ _ H)
      as (s & a & rest & target & rest' & Hs & _ & Ht & Ha & _ & ->).
    apply select_accounts_by_id_hd in Ha, Ht.
    destruct Ha as [Hid _]. destruct Ht as [Htid _].
    exists s. split; [exact Hs |]. simpl. rewrite Hid, Htid, <- app_assoc.
    reflexivity.
  - intros amount to s a rest Hr Hs Hb Ha. split; [| intros Hg; split].
    + eapply deposit_returns; eassumption.
    + eapply withdraw_returns; eassumption.
    + intros target rest' Ht. eapply transfer_returns; eassumption.
Qed.

(** john deposits 25; and the scenario of section 8: john withdraws 40, or
    moves 60 to mary.  Each run returns, and each leaves the rows stated. *)
Lemma success_appends_matching_rows_witness :
  (fst (deposit NumberOfLiteral "25" (fresh bank as_john)) =
     Ok (mkTransaction 1 1 Store.deposit (PStr "25") None) /\
   transactions (db (snd (deposit NumberOfLiteral "25" (fresh bank as_john)))) =
     [ mkTransaction 1 1 Store.deposit (PStr "25") None ]) /\
  (fst (withdraw NumberOfLiteral "40" (fresh bank as_john)) =
     Ok (mkTransaction 1 1 Store.withdraw (PStr "40") None) /\
   transactions (db (snd (withdraw NumberOfLiteral "40" (fresh bank as_john)))) =
     [ mkTransaction 1 1 Store.withdraw (PStr "40") None ]) /\
  (fst (transfer NumberOfLiteral "60" 2 (fresh bank as_john)) =
     Ok (mkTransferView
           (mkTransaction 1 1 transfer_out (PNum (Fin 60)) (Some 2)) "mary"
           (mkTransaction 2 2 transfer_in (PNum (Fin 60)) (Some 1)) "john") /\
   transactions (db (snd (transfer NumberOfLiteral "60" 2 (fresh bank as_john)))) =
     [ mkTransaction 1 1 transfer_out (PNum (Fin 60)) (Some 2);
       mkTransaction 2 2 transfer_in (PNum (Fin 60)) (Some 1) ]) /\
  (exists t, fst (deposit NumberOfLiteral "25" (fresh bank as_john)) = Ok t) /\
  (exists t, fst (withdraw NumberOfLiteral "40" (fresh bank as_john)) = Ok t) /\
  (exists v, fst (transfer NumberOfLiteral "60" 2 (fresh bank as_john)) = Ok v).
Proof.
  destruct (success_appends_matching_rows NumberOfLiteral (fresh bank as_john))
    as (Hd & Hw & Ht & Hret).
  split; [| split; [| split; [| split; [| split]]]].
  - split; [reflexivity |].
    destruct (Hd "25" (mkTransaction 1 1 Store.deposit (PStr "25") None)
                (snd (deposit NumberOfLiteral "25" (fresh bank as_john))) eq_refl)
      as (s & Hs & E).
    inversion Hs; subst. exact E.
  - split; [reflexivity |].
    destruct (Hw "40" (mkTransaction 1 1 Store.withdraw (PStr "40") None)
                (snd (withdraw NumberOfLiteral "40" (fresh bank as_john))) eq_refl)
      as (s & Hs & E).
    inversion Hs; subst. exact E.
  - split; [reflexivity |].
    destruct (Ht "60" 2
                (mkTransferView
                   (mkTransaction 1 1 transfer_out (PNum (Fin 60)) (Some 2)) "mary"
                   (mkTransaction 2 2 transfer_in (PNum (Fin 60)) (Some 1)) "john")
                (snd (transfer NumberOfLiteral "60" 2 (fresh bank as_john))) eq_refl)
      as (s & Hs & E).
    inversion Hs; subst. exact E.
  - exact (proj1 (Hret "25" 2 {| session_id := 1; session_name := "john" |} john []
                    (conj eq_refl eq_refl) eq_refl eq_refl eq_refl)).
  - exact (proj1 (proj2 (Hret "40" 2 {| session_id := 1; session_name := "john" |}
                           john [] (conj eq_refl eq_refl) eq_refl eq_refl eq_refl)
                    eq_refl)).
  - exact (proj2 (proj2 (Hret "60" 2 {| session_id := 1; session_name := "john" |}
                           john [] (conj eq_refl eq_refl) eq_refl eq_refl eq_refl)
                    eq_refl) mary [] eq_refl).
Defined.

End Logging.

(* ------------------------------------------------------------------ *)
(** ** Store failures in the middle of a write sequence *)

Module Atomicity.
Import Js Store Atm Run Scenario.

(** The store after a deposit is the store before it with the writes that
    were issued before the failure, if any, applied in order. *)
Lemma deposit_performed Number amount w s a rest :
  closed w = false -> session w = Some s ->
  bad_amount (Number amount) = false ->
  fst (select_accounts_by_id (session_id s) (db w)) = a :: rest ->
  db (snd (deposit Number amount w)) =
    apply_writes
      (performed (fault w) 1 (deposit_writes a (session_id s) amount (Number amount)))
      (db w).
Proof.
  intros Hc Hs Hb Ha. open_world w. subst. run_action. rewrite Hb. simpl.
  destruct f as [[| [| [| [| k]]]] |]; simpl; try rewrite Ha; simpl;
    any_row; reflexivity.
Qed.

Lemma withdraw_performed Number amount w s a rest :
  closed w = false -> session w = Some s ->
  bad_amount (Number amount) = false ->
  fst (select_accounts_by_id (session_id s) (db w)) = a :: rest ->
  Js.gt (Number amount) (acc_balance a) = false ->
  db (snd (withdraw Number amount w)) =
    apply_writes
      (performed (fault w) 1 (withdraw_writes a amount (Number amount))) (db w).
Proof.
  intros Hc Hs Hb Ha Hg. open_world w. subst. run_action. rewrite Hb. simpl.
  destruct f as [[| [| [| [| k]]]] |]; simpl; try rewrite Ha; simpl;
    try rewrite Hg; simpl; any_row; reflexivity.
Qed.

Lemma transfer_performed Number amount to w s a rest target rest' :
  closed w = false -> session w = Some s ->
  bad_amount (Number amount) = false ->
  fst (select_accounts_by_id (session_id s) (db w)) = a :: rest ->
  Js.gt (Number amount) (acc_balance a) = false ->
  fst (select_accounts_by_id to (db w)) = target :: rest' ->
  db (snd (transfer Number amount to w)) =
    apply_writes
      (performed (fault w) 2 (transfer_writes a target (Number amount))) (db w).
Proof.
  intros Hc Hs Hb Ha Hg Ht. open_world w. subst. run_action. rewrite Hb. simpl.
  destruct f as [[| [| [| [| [| [| [| [| k]]]]]]]] |]; simpl; try rewrite Ht; simpl;
    try rewrite Ha; simpl; try rewrite Hg; simpl; any_row; reflexivity.
Qed.

(** A failure at any of the statements of the run is what the operation
    reports. *)
Lemma deposit_reports_failure Number amount w s a rest k :
  closed w = false -> session w = Some s ->
  bad_amount (Number amount) = false ->
  fst (select_accounts_by_id (session_id s) (db w)) = a :: rest ->
  fault w = Some k -> (k < 4)%nat ->
  fst (deposit Number amount w) = Err StoreUnavailable.
Proof.
  intros Hc Hs Hb Ha Hf Hk. open_world w. subst. run_action. rewrite Hb. simpl.
  destruct k as [| [| [| [| k]]]]; try lia; simpl; try rewrite Ha; simpl;
    reflexivity.
Qed.

Lemma withdraw_reports_failure Number amount w s a rest k :
  closed w = false -> session w = Some s ->
  bad_amount (Number amount) = false ->
  fst (select_accounts_by_id (session_id s) (db w)) = a :: rest ->
  Js.gt (Number amount) (acc_balance a) = false ->
  fault w = Some k -> (k < 4)%nat ->
  fst (withdraw Number amount w) = Err StoreUnavailable.
Proof.
  intros Hc Hs Hb Ha Hg Hf Hk. open_world w. subst. run_action. rewrite Hb. simpl.
  destruct k as [| [| [| [| k]]]]; try lia; simpl; try rewrite Ha; simpl;
    try rewrite Hg; simpl; reflexivity.
Qed.

Lemma transfer_reports_failure Number amount to w s a rest target rest' k :
  closed w = false -> session w = Some s ->
  bad_amount (Number amount) = false ->
  fst (select_accounts_by_id (session_id s) (db w)) = a :: rest ->
  Js.gt (Number amount) (acc_balance a) = false ->
  fst (select_accounts_by_id to (db w)) = target :: rest' ->
  fault w = Some k -> (k < 8)%nat ->
  fst (transfer Number amount to w) = Err StoreUnavailable.
Proof.
  intros Hc Hs Hb Ha Hg Ht Hf Hk. open_world w. subst. run_action. rewrite Hb. simpl.
  destruct k as [| [| [| [| [| [| [| [| k]]]]]]]]; try lia; simpl;
    try rewrite Ht; simpl; try rewrite Ha; simpl; try rewrite Hg; simpl;
    reflexivity.
Qed.

(** Claim C2, as the code has it.  The writes of deposit, withdraw and
    transfer are issued one after another, with nothing around them that
    could undo one.  When the store fails at a statement of the run, the
    operation reports the failure, the writes issued before it stay in the
    store in their order, and the later ones are not issued: a failure
    before the first write leaves the store as it was, a later one leaves
    it with the writes that preceded it.  [performed] counts the writes that got through: the failure
    after [k] statements, less the reads that come first (one for deposit
    and withdraw, two for transfer). *)
Theorem store_failure_keeps_earlier_writes Number amount to w s a rest :
  closed w = false -> session w = Some s ->
  bad_amount (Number amount) = false ->
  fst (select_accounts_by_id (session_id s) (db w)) = a :: rest ->
  (db (snd (deposit Number amount w)) =
     apply_writes
       (performed (fault w) 1 (deposit_writes a (session_id s) amount (Number amount)))
       (db w) /\
   forall k, fault w = Some k -> (k < 4)%nat ->
     fst (deposit Number amount w) = Err StoreUnavailable) /\
  (Js.gt (Number amount) (acc_balance a) = false ->
   (db (snd (withdraw Number amount w)) =
      apply_writes
        (performed (fault w) 1 (withdraw_writes a amount (Number amount))) (db w) /\
    forall k, fault w = Some k -> (k < 4)%nat ->
      fst (withdraw Number amount w) = Err StoreUnavailable) /\
   forall target rest',
     fst (select_accounts_by_id to (db w)) = target :: rest' ->
     db (snd (transfer Number amount to w)) =
       apply_writes
         (performed (fault w) 2 (transfer_writes a target (Number amount))) (db w) /\
     forall k, fault w = Some k -> (k < 8)%nat ->
       fst (transfer Number amount to w) = Err StoreUnavailable).
Proof.
  intros Hc Hs Hb Ha. split; [split | intros Hg; split; [split |]].
  - eapply deposit_performed; eassumption.
  - intros k Hf Hk. eapply deposit_reports_failure; eassumption.
  - eapply withdraw_performed; eassumption.
  - intros k Hf Hk. eapply withdraw_reports_failure; eassumption.
  - intros target rest' Ht. split.
    + eapply transfer_performed; eassumption.
    + intros k Hf Hk. eapply transfer_reports_failure; eassumption.
Qed.

(** The store fails at the fourth statement of a transfer of 60 from john to
    mary, the INSERT of the transfer_out row: of the four writes only the
    first, john's debit, is in the store. *)
Lemma store_failure_keeps_earlier_writes_witness :
  db (snd (transfer NumberOfLiteral "60" 2 (with_fault (fresh bank as_john) (Some 3%nat)))) =
    apply_writes [ SetBalanceById (Fin 40) 1 ] bank /\
  fst (transfer NumberOfLiteral "60" 2 (with_fault (fresh bank as_john) (Some 3%nat))) =
    Err StoreUnavailable.
Proof.
  destruct (store_failure_keeps_earlier_writes NumberOfLiteral "60" 2
              (with_fault (fresh bank as_john) (Some 3%nat))
              {| session_id := 1; session_name := "john" |} john []
              eq_refl eq_refl eq_refl eq_refl) as [_ H].
  destruct (H eq_refl) as [_ Ht].
  destruct (Ht mary [] eq_refl) as [Hdb Hout].
  split.
  - exact Hdb.
  - apply (Hout 3%nat eq_refl). simpl. lia.
Defined.

(** Claim C2 as stated fails.  In that run the operation fails, and the
    store it leaves is not the one it found: john is debited (100 to 40),
    no transfer_out row exists, and mary was not credited. *)
Lemma partial_transfer_is_observable :
  fst (transfer NumberOfLiteral "60" 2 (with_fault (fresh bank as_john) (Some 3%nat))) =
    Err StoreUnavailable /\
  balance_of 1 bank = Some (Fin 100) /\
  db (snd (transfer NumberOfLiteral "60" 2 (with_fault (fresh bank as_john) (Some 3%nat)))) =
    {| accounts := [ set_balance john (Fin 40); mary ];
       transactions := [];
       auto_increment := 1 |}.
Proof. repeat split; reflexivity. Qed.

End Atomicity.

(* ------------------------------------------------------------------ *)
(** ** Balances *)

Module Balances.
Import Js Store Atm Run Scenario.

(** *** Rules for [keeps] *)

Section Keeps.
Variable I : Db -> Prop.

Lemma keeps_ret {A} (a : A) (Q : A -> Prop) : Q a -> keeps I (ret a) Q.
Proof.
  intros HQ w HI. split; [exact HI |]. simpl. intros b E.
  inversion E; subst; exact HQ.
Qed.

Lemma keeps_throw {A} e (Q : A -> Prop) : keeps I (throw e) Q.
Proof. intros w HI. split; [exact HI |]. simpl. discriminate. Qed.

Lemma keeps_bind {A B} (m : M A) (k : A -> M B) (Q : A -> Prop) (R : B -> Prop) :
  keeps I m Q -> (forall a, Q a -> keeps I (k a) R) -> keeps I (bind m k) R.
Proof.
  intros Hm Hk w HI. destruct (Hm w HI) as [HI1 HQ].
  unfold bind. destruct (m w) as [[a | e] w1]; simpl in *.
  - apply Hk; [apply HQ; reflexivity | exact HI1].
  - split; [exact HI1 | discriminate].
Qed.

(** A statement either runs or leaves the store alone. *)
Lemma keeps_execute {A} (stmt : Db -> A * Db) (Q : A -> Prop) :
  (forall d, I d -> I (snd (stmt d)) /\ Q (fst (stmt d))) ->
  keeps I (execute stmt) Q.
Proof.
  intros Hst w HI. destruct (Hst (db w) HI) as [HI1 HQ].
  unfold execute. destruct (closed w); [split; [exact HI | discriminate] |].
  destruct (fault w) as [[| k] |]; simpl.
  - split; [exact HI | discriminate].
  - split; [exact HI1 |]. intros a E; inversion E; subst; exact HQ.
  - split; [exact HI1 |]. intros a E; inversion E; subst; exact HQ.
Qed.

Lemma keeps_execute_any {A} (stmt : Db -> A * Db) :
  (forall d, I d -> I (snd (stmt d))) -> keeps I (execute stmt) (fun _ => True).
Proof.
  intros H. apply keeps_execute. intros d Hd. split; [apply H, Hd | exact Logic.I].
Qed.

Lemma keeps_try_finally {A} (m : M A) (Q : A -> Prop) :
  keeps I m Q -> keeps I (try_finally m) Q.
Proof.
  intros Hm w HI. destruct (Hm w HI) as [HI1 HQ]. split; [exact HI1 | exact HQ].
Qed.

(** Steps that do not touch the store. *)
Lemma keeps_local {A} (m : M A) :
  (forall w, db (snd (m w)) = db w) -> keeps I m (fun _ => True).
Proof. intros E w HI. rewrite E. split; auto. Qed.

Lemma keeps_getSession : keeps I getSession (fun _ => True).
Proof. apply keeps_local. reflexivity. Qed.

Lemma keeps_require_session o : keeps I (require_session o) (fun _ => True).
Proof. apply keeps_local. destruct o; reflexivity. Qed.

Lemma keeps_destructure {A} (rows : list A) (Q : A -> Prop) :
  Forall Q rows -> keeps I (destructure rows) Q.
Proof.
  intros H. destruct rows as [| r rest]; simpl.
  - apply keeps_throw.
  - apply keeps_ret. inversion H; assumption.
Qed.

End Keeps.

Lemma Forall_True {A} (l : list A) : Forall (fun _ => True) l.
Proof. induction l; constructor; auto. Qed.

(** *** The statements and the invariant *)

Lemma select_by_id_ok i d :
  no_negative_balance d ->
  no_negative_balance (snd (select_accounts_by_id i d)) /\
  Forall row_ok (fst (select_accounts_by_id i d)).
Proof.
  intros H. split; [exact H |]. simpl. unfold no_negative_balance in H.
  rewrite Forall_forall in *. intros a Ha. apply filter_In in Ha. apply H, Ha.
Qed.

Lemma update_by_id_ok b i d :
  negative b = false -> no_negative_balance d ->
  no_negative_balance (snd (update_balance_by_id b i d)).
Proof.
  intros Hb H. unfold no_negative_balance in *. simpl.
  rewrite Forall_forall in *. intros a Ha. apply in_map_iff in Ha.
  destruct Ha as (a0 & <- & Hin). destruct (acc_id a0 =? i); simpl; auto.
Qed.

(** Every row of that name gets the new balance, and it is not negative. *)
Lemma update_by_name_ok b n d :
  negative b = false -> no_negative_balance d ->
  no_negative_balance (snd (update_balance_by_name b n d)).
Proof.
  intros Hb H. unfold no_negative_balance in *. simpl.
  rewrite Forall_forall in *. intros a Ha. apply in_map_iff in Ha.
  destruct Ha as (a0 & <- & Hin). destruct (String.eqb (acc_name a0) n); simpl; auto.
Qed.

(** Arithmetic of the two balance computations. *)
Lemma credit_not_negative b n :
  negative b = false -> bad_amount n = false -> negative (Js.add b n) = false.
Proof.
  unfold negative, bad_amount, Js.le.
  destruct b as [| | x |], n as [| | y |]; simpl; try reflexivity; try discriminate.
  intros Hx Hy. apply orb_false_iff in Hy. destruct Hy as [Hy _].
  apply Z.ltb_ge in Hx, Hy. apply Z.ltb_ge. lia.
Qed.

Lemma debit_not_negative b n :
  negative b = false -> bad_amount n = false -> Js.gt n b = false ->
  negative (Js.sub b n) = false.
Proof.
  unfold negative, bad_amount, Js.le, Js.gt, Js.sub.
  destruct b as [| | x |], n as [| | y |]; simpl; try reflexivity; try discriminate.
  intros Hx _ Hg. apply Z.ltb_ge in Hx, Hg. apply Z.ltb_ge. lia.
Qed.

(** Chain one step of an action. *)
Ltac keep H := eapply keeps_bind; [H | intros ? ?].

Ltac keep_read := keep ltac:(apply keeps_execute_any; intros ? ?; assumption).

(** *** The actions *)

Lemma deposit_keeps Number amount :
  keeps no_negative_balance (deposit Number amount) (fun _ => True).
Proof.
  unfold deposit. apply keeps_try_finally.
  keep ltac:(apply keeps_getSession). keep ltac:(apply keeps_require_session).
  destruct (bad_amount (Number amount)) eqn:Hb; [apply keeps_throw |].
  keep ltac:(apply keeps_execute, select_by_id_ok).
  keep ltac:(apply keeps_destructure; eassumption).
  keep ltac:(apply keeps_execute_any; intros d;
             apply update_by_id_ok, credit_not_negative; assumption).
  keep_read. keep_read. apply keeps_destructure, Forall_True.
Qed.

Lemma withdraw_keeps Number amount :
  keeps no_negative_balance (withdraw Number amount) (fun _ => True).
Proof.
  unfold withdraw. apply keeps_try_finally.
  keep ltac:(apply keeps_getSession). keep ltac:(apply keeps_require_session).
  destruct (bad_amount (Number amount)) eqn:Hb; [apply keeps_throw |].
  keep ltac:(apply keeps_execute, select_by_id_ok).
  keep ltac:(apply keeps_destructure; eassumption).
  match goal with |- context [Js.gt ?n ?b] => destruct (Js.gt n b) eqn:Hg end;
    [apply keeps_throw |].
  keep ltac:(apply keeps_execute_any; intros d;
             apply update_by_name_ok, debit_not_negative; assumption).
  keep_read. keep_read. apply keeps_destructure, Forall_True.
Qed.

Lemma transfer_keeps Number amount to :
  keeps no_negative_balance (transfer Number amount to) (fun _ => True).
Proof.
  unfold transfer. apply keeps_try_finally.
  keep ltac:(apply keeps_getSession). keep ltac:(apply keeps_require_session).
  destruct (bad_amount (Number amount)) eqn:Hb; [apply keeps_throw |].
  keep ltac:(apply keeps_execute, select_by_id_ok).
  destruct (List.length _ <? 1)%nat; [apply keeps_throw |].
  keep ltac:(apply keeps_destructure; eassumption).
  keep ltac:(apply keeps_execute, select_by_id_ok).
  keep ltac:(apply keeps_destructure; eassumption).
  match goal with |- context [Js.gt ?n ?b] => destruct (Js.gt n b) eqn:Hg end;
    [apply keeps_throw |].
  keep ltac:(apply keeps_execute_any; intros d;
             apply update_by_id_ok, debit_not_negative; assumption).
  keep_read.
  keep ltac:(apply keeps_execute_any; intros d;
             apply update_by_id_ok, credit_not_negative; assumption).
  keep_read. keep_read. keep_read.
  keep ltac:(apply keeps_destructure, Forall_True).
  keep ltac:(apply keeps_destructure, Forall_True).
  apply keeps_ret. exact Logic.I.
Qed.

Lemma check_balance_keeps :
  keeps no_negative_balance check_balance (fun _ => True).
Proof.
  unfold check_balance. apply keeps_try_finally.
  keep ltac:(apply keeps_getSession). keep ltac:(apply keeps_require_session).
  keep ltac:(apply keeps_execute, select_by_id_ok).
  keep ltac:(apply keeps_destructure; eassumption).
  apply keeps_ret. exact Logic.I.
Qed.

(** Login writes the session file and the counter, never the store. *)
Lemma login_keeps verify name pin :
  keeps no_negative_balance (login verify name pin) (fun _ => True).
Proof.
  intros w HI. unfold login.
  destruct (3 <=? failedLoginAttempts w)%nat; [split; [exact HI | discriminate] |].
  revert w HI. apply keeps_try_finally.
  apply keeps_bind with (Q := fun _ => True);
    [destruct pin; [apply keeps_ret; exact Logic.I | apply keeps_throw] | intros p _].
  keep_read.
  destruct (List.length _ <? 1)%nat.
  - keep ltac:(apply keeps_local; reflexivity). apply keeps_throw.
  - keep ltac:(apply keeps_destructure, Forall_True). simpl.
    keep ltac:(apply keeps_local; reflexivity).
    keep ltac:(apply keeps_local; reflexivity).
    apply keeps_ret. exact Logic.I.
Qed.

Lemma action_keeps Number verify c w :
  no_negative_balance (db w) -> no_negative_balance (db (action Number verify c w)).
Proof.
  intros HI. destruct c; simpl.
  - apply (login_keeps verify name pin w HI).
  - apply (check_balance_keeps w HI).
  - apply (deposit_keeps Number amount w HI).
  - apply (withdraw_keeps Number amount w HI).
  - apply (transfer_keeps Number amount to w HI).
Qed.

(** Claim C4.  Take a store in which no balance is negative and any sequence
    of invocations of the program (login, check-balance, deposit, withdraw,
    transfer, with any arguments, each in a process of its own, the store
    free to fail at any statement).  After each invocation of the sequence
    no balance in the store is negative. *)
Theorem balances_never_negative Number verify cs : forall w,
  no_negative_balance (db w) ->
  Forall (fun w' => no_negative_balance (db w')) (history Number verify cs w).
Proof.
  induction cs as [| cf cs IH]; intros w HI; simpl.
  - constructor.
  - assert (H1 : no_negative_balance (db (invoke Number verify cf w)))
      by (unfold invoke; apply action_keeps; exact HI).
    constructor; [exact H1 | apply IH, H1].
Qed.

Lemma balances_never_negative_witness :
  no_negative_balance bank /\
  Forall (fun w' => no_negative_balance (db w'))
    (history NumberOfLiteral verify_bracket
       [ (Withdraw "150", None); (Withdraw "40", None);
         (Transfer "60" 2, Some 3%nat); (Deposit "25", None) ]
       (fresh bank as_john)).
Proof.
  assert (H : no_negative_balance bank) by (repeat constructor).
  split; [exact H |].
  apply (balances_never_negative NumberOfLiteral verify_bracket _
           (fresh bank as_john) H).
Defined.

(** Claim C3, at a failing input.  john, with balance 100, transfers 60 to
    his own account id.  The transfer passes every check and returns; the
    sender and the receiver are the same row, read twice before either
    write, and the second write (100 + 60) overwrites the first (100 - 60).
    The two balances summed to 200 before the operation and sum to 320
    after it. *)
Theorem self_transfer_creates_money :
  balance_of 1 bank = Some (Fin 100) /\
  fst (transfer NumberOfLiteral "60" 1 (fresh bank as_john)) =
    Ok {| tfout := mkTransaction 1 1 transfer_out (PNum (Fin 60)) (Some 1);
          receiver_name := "john";
          tfin := mkTransaction 2 1 transfer_in (PNum (Fin 60)) (Some 1);
          sender_name := "john" |} /\
  balance_of 1 (db (snd (transfer NumberOfLiteral "60" 1 (fresh bank as_john)))) =
    Some (Fin 160) /\
  Js.add (Fin 100) (Fin 100) = Fin 200 /\
  Js.add (Fin 160) (Fin 160) = Fin 320.
Proof. repeat split; reflexivity. Qed.

(** Claim C10, at a failing input.  Accounts 1 and 3 are both named john;
    the session is account 1, with balance 100, and account 3 holds 500.
    A withdraw of 40 returns, and its UPDATE, keyed on the name, sets the
    balance of both rows to 60: account 3 loses 440 it never withdrew. *)
Theorem withdraw_overwrites_namesake :
  balance_of 3 bank_two_johns = Some (Fin 500) /\
  fst (withdraw NumberOfLiteral "40" (fresh bank_two_johns as_john)) =
    Ok (mkTransaction 1 1 Store.withdraw (PStr "40") None) /\
  balance_of 1 (db (snd (withdraw NumberOfLiteral "40" (fresh bank_two_johns as_john)))) =
    Some (Fin 60) /\
  balance_of 3 (db (snd (withdraw NumberOfLiteral "40" (fresh bank_two_johns as_john)))) =
    Some (Fin 60).
Proof. repeat split; reflexivity. Qed.

End Balances.

(* ------------------------------------------------------------------ *)
(** ** Operations: refusals and effects on the balances *)

Module Operations.
Import Js Store Atm Program Run Scenario.

(** *** What a SELECT by id finds after each write *)

Lemma rows_of_update_other b j i d :
  i <> j -> rows_of i (snd (update_balance_by_id b j d)) = rows_of i d.
Proof.
  intros Hne. unfold rows_of. simpl.
  induction (accounts d) as [| r l IH]; simpl; [reflexivity |].
  destruct (acc_id r =? j) eqn:Ej; simpl.
  - apply Z.eqb_eq in Ej.
    assert (Ei : (acc_id r =? i) = false) by (apply Z.eqb_neq; congruence).
    rewrite Ei. exact IH.
  - destruct (acc_id r =? i); rewrite IH; reflexivity.
Qed.

Lemma rows_of_update_same b i d :
  rows_of i (snd (update_balance_by_id b i d)) =
  map (fun r => set_balance r b) (rows_of i d).
Proof.
  unfold rows_of. simpl.
  induction (accounts d) as [| r l IH]; simpl; [reflexivity |].
  destruct (acc_id r =? i) eqn:Ei; simpl; rewrite ?Ei, IH; reflexivity.
Qed.

Lemma rows_of_update_by_name b n i d :
  rows_of i (snd (update_balance_by_name b n d)) =
  map (fun r => if String.eqb (acc_name r) n then set_balance r b else r)
      (rows_of i d).
Proof.
  unfold rows_of. simpl.
  induction (accounts d) as [| r l IH]; simpl; [reflexivity |].
  assert (Er : acc_id (if String.eqb (acc_name r) n then set_balance r b else r)
               = acc_id r) by (destruct (String.eqb (acc_name r) n); reflexivity).
  rewrite Er. destruct (acc_id r =? i); simpl; rewrite IH; reflexivity.
Qed.

Lemma rows_of_insert_transaction i j ty amount target d :
  rows_of i (snd (insert_transaction j ty amount target d)) = rows_of i d.
Proof. reflexivity. Qed.

Lemma balance_of_rows i d :
  balance_of i d =
  match rows_of i d with [] => None | a :: _ => Some (acc_balance a) end.
Proof. reflexivity. Qed.

Lemma map_unchanged {A} (g : A -> A) (l : list A) :
  Forall (fun r => g r = r) l -> map g l = l.
Proof. induction 1; simpl; congruence. Qed.

(** Without a session file the four session-gated actions fail with
    NotAuthenticated before any statement is issued, whatever else they were
    given: the world is the one they started from, connection closed. *)
Theorem no_session_no_statement Number amount to w :
  session w = None ->
  check_balance w = (Err NotAuthenticated, db_end w) /\
  deposit Number amount w = (Err NotAuthenticated, db_end w) /\
  withdraw Number amount w = (Err NotAuthenticated, db_end w) /\
  transfer Number amount to w = (Err NotAuthenticated, db_end w).
Proof.
  intros Hs. repeat split; run_action; rewrite Hs; reflexivity.
Qed.

Lemma no_session_no_statement_witness :
  check_balance (fresh bank None) = (Err NotAuthenticated, db_end (fresh bank None)) /\
  deposit NumberOfLiteral "abc" (fresh bank None) =
    (Err NotAuthenticated, db_end (fresh bank None)) /\
  withdraw NumberOfLiteral "40" (fresh bank None) =
    (Err NotAuthenticated, db_end (fresh bank None)) /\
  transfer NumberOfLiteral "60" 2 (fresh bank None) =
    (Err NotAuthenticated, db_end (fresh bank None)).
Proof.
  destruct (no_session_no_statement NumberOfLiteral "abc" 2 (fresh bank None) eq_refl)
    as (Hc & Hd & _).
  destruct (no_session_no_statement NumberOfLiteral "40" 2 (fresh bank None) eq_refl)
    as (_ & _ & Hw & _).
  destruct (no_session_no_statement NumberOfLiteral "60" 2 (fresh bank None) eq_refl)
    as (_ & _ & _ & Ht).
  repeat split; assumption.
Defined.

(** A transfer to an id the store does not hold fails with TargetNotFound,
    whatever the sender's balance, and leaves store and session as they
    were. *)
Theorem missing_target_is_refused Number amount to w s :
  responsive w -> session w = Some s ->
  bad_amount (Number amount) = false ->
  rows_of to (db w) = [] ->
  fst (transfer Number amount to w) = Err TargetNotFound /\
  db (snd (transfer Number amount to w)) = db w /\
  session (snd (transfer Number amount to w)) = session w.
Proof.
  intros [Hc Hf] Hs Hb Ht. unfold rows_of in Ht. open_world w. subst. run_action.
  rewrite Hb. simpl. rewrite Ht. simpl. repeat split; reflexivity.
Qed.

Lemma missing_target_is_refused_witness :
  rows_of 9 bank = [] /\
  fst (transfer NumberOfLiteral "150" 9 (fresh bank as_john)) = Err TargetNotFound /\
  db (snd (transfer NumberOfLiteral "150" 9 (fresh bank as_john))) = bank /\
  session (snd (transfer NumberOfLiteral "150" 9 (fresh bank as_john))) = as_john.
Proof.
  split; [reflexivity |].
  exact (missing_target_is_refused NumberOfLiteral "150" 9 (fresh bank as_john)
           {| session_id := 1; session_name := "john" |}
           (conj eq_refl eq_refl) eq_refl eq_refl eq_refl).
Defined.

(** *** Checks come before writes *)

(** A deposit returns, or reports a store failure, or has written nothing. *)
Lemma deposit_trichotomy Number amount w :
  (exists t, fst (deposit Number amount w) = Ok t) \/
  fst (deposit Number amount w) = Err StoreUnavailable \/
  db (snd (deposit Number amount w)) = db w.
Proof.
  open_world w. run_action. destruct ses as [s |]; simpl; [| auto].
  destruct (bad_amount (Number amount)); simpl; [auto |].
  destruct c; simpl; [auto |].
  destruct f as [[| [| [| [| k]]]] |]; simpl; auto;
    destruct (filter _ (accounts d)) as [| a rest]; simpl; auto.
  all: find_row; left; eexists; reflexivity.
Qed.

Lemma withdraw_trichotomy Number amount w :
  (exists t, fst (withdraw Number amount w) = Ok t) \/
  fst (withdraw Number amount w) = Err StoreUnavailable \/
  db (snd (withdraw Number amount w)) = db w.
Proof.
  open_world w. run_action. destruct ses as [s |]; simpl; [| auto].
  destruct (bad_amount (Number amount)); simpl; [auto |].
  destruct c; simpl; [auto |].
  destruct f as [[| [| [| [| k]]]] |]; simpl; auto;
    destruct (filter _ (accounts d)) as [| a rest]; simpl; auto;
    destruct (Js.gt (Number amount) (acc_balance a)); simpl; auto.
  all: find_row; left; eexists; reflexivity.
Qed.

(** A run of [bind] that failed did so in one of its halves. *)
Lemma bind_err_inv {A B} (m : M A) (k : A -> M B) w e w' :
  bind m k w = (Err e, w') ->
  m w = (Err e, w') \/ exists a w1, m w = (Ok a, w1) /\ k a w1 = (Err e, w').
Proof.
  unfold bind. destruct (m w) as [[a | e0] w1]; intros H.
  - right. exists a, w1. split; [reflexivity | exact H].
  - left. inversion H; subst. reflexivity.
Qed.

Lemma try_finally_err_inv {A} (body : M A) w e w' :
  try_finally body w = (Err e, w') ->
  exists w1, body w = (Err e, w1) /\ w' = db_end w1.
Proof.
  unfold try_finally. destruct (body w) as [r w1]; simpl.
  intros H. inversion H; subst. exists w1. split; reflexivity.
Qed.

(** The only error of a statement is the store's. *)
Lemma execute_err_inv {A} (stmt : Db -> A * Db) w e w' :
  execute stmt w = (Err e, w') -> e = StoreUnavailable.
Proof.
  unfold execute. destruct (closed w); [intros H; inversion H; reflexivity |].
  destruct (fault w) as [[| k] |]; intros H; inversion H; reflexivity.
Qed.

Lemma destructure_err_inv {A} (rows : list A) w e w' :
  destructure rows w = (Err e, w') -> rows = [] /\ w' = w.
Proof.
  destruct rows; simpl; intros H; inversion H. split; reflexivity.
Qed.

Lemma require_session_err_inv o w e w' :
  require_session o w = (Err e, w') -> w' = w.
Proof. destruct o; simpl; intros H; inversion H; reflexivity. Qed.

(** Follow a failed run into the step that failed: a failed statement is a
    store failure, which the hypothesis [He] excludes. *)
Tactic Notation "unbind_err" hyp(H) "as" ident(a) ident(w1) ident(H1) :=
  apply bind_err_inv in H;
  destruct H as [H | (a & w1 & H1 & H)];
  [ try (apply execute_err_inv in H; congruence) | ].

(** A transfer that fails otherwise than by the store has written nothing. *)
Lemma transfer_refusal Number amount to w e w' :
  transfer Number amount to w = (Err e, w') ->
  e <> StoreUnavailable -> db w' = db w.
Proof.
  intros H He. unfold transfer in H.
  apply try_finally_err_inv in H. destruct H as (w0 & H & ->). simpl.
  unbind_err H as o w1 Hget; [discriminate H |].
  apply getSession_inv in Hget. destruct Hget as [-> ->].
  unbind_err H as s w1 Hreq; [apply require_session_err_inv in H; congruence |].
  apply require_session_inv in Hreq. destruct Hreq as [Hs ->].
  destruct (bad_amount (Number amount)); [inversion H; reflexivity |].
  unbind_err H as trows w1 Htsel.
  apply execute_inv in Htsel. destruct Htsel as (-> & D0 & _).
  destruct (List.length _ <? 1)%nat; [inversion H; subst; exact D0 |].
  unbind_err H as target w2 Htrow;
    [apply destructure_err_inv in H; destruct H as [_ ->]; exact D0 |].
  apply destructure_inv in Htrow. destruct Htrow as [-> _].
  unbind_err H as rows w2 Hsel.
  apply execute_inv in Hsel. destruct Hsel as (-> & D1 & _).
  simpl in D0, D1.
  unbind_err H as a w3 Hrow;
    [apply destructure_err_inv in H; destruct H as [_ ->]; congruence |].
  apply destructure_inv in Hrow. destruct Hrow as [-> _].
  destruct (Js.gt (Number amount) (acc_balance a)); [inversion H; subst; congruence |].
  unbind_err H as u w4 Hupd. apply execute_inv in Hupd. destruct Hupd as (_ & D3 & _).
  unbind_err H as outId w5 Hins. apply execute_inv in Hins. destruct Hins as (-> & D4 & _).
  unbind_err H as u' w6 Hupd'. apply execute_inv in Hupd'. destruct Hupd' as (_ & D5 & _).
  unbind_err H as inId w7 Hins'. apply execute_inv in Hins'. destruct Hins' as (-> & D6 & _).
  unbind_err H as otx w8 Hs1. apply execute_inv in Hs1. destruct Hs1 as (-> & D7 & _).
  unbind_err H as itx w9 Hs2. apply execute_inv in Hs2. destruct Hs2 as (-> & D8 & _).
  exfalso. simpl in D5, D6, D7, D8. simpl in H.
  rewrite D7, D6 in H. simpl in H. rewrite D5 in H. simpl in H.
  rewrite D4 in H. simpl in H.
  set (l := transactions (db w4)) in *.
  set (n := auto_increment (db w4)) in *.
  destruct (destructure_before_last (fun t => tx_id t =? n) l
              {| tx_id := n; tx_account_id := acc_id a; tx_type := transfer_out;
                 tx_amount := PNum (Number amount);
                 tx_target_id := Some (acc_id target) |}
              {| tx_id := n + 1; tx_account_id := acc_id target;
                 tx_type := transfer_in; tx_amount := PNum (Number amount);
                 tx_target_id := Some (acc_id a) |} w9 (Z.eqb_refl n)) as [r1 E1].
  destruct (destructure_last (fun t => tx_id t =? n + 1)
              (l ++ [ {| tx_id := n; tx_account_id := acc_id a; tx_type := transfer_out;
                         tx_amount := PNum (Number amount);
                         tx_target_id := Some (acc_id target) |} ])
              {| tx_id := n + 1; tx_account_id := acc_id target;
                 tx_type := transfer_in; tx_amount := PNum (Number amount);
                 tx_target_id := Some (acc_id a) |} w9 (Z.eqb_refl (n + 1))) as [r2 E2].
  unfold bind in H. rewrite E1, E2 in H. discriminate H.
Qed.

(** An operation that fails with anything but a store failure has written
    nothing: every check of deposit, withdraw and transfer comes before
    their first write, and after the last write only the store can fail. *)
Theorem refusal_writes_nothing Number amount to w e :
  e <> StoreUnavailable ->
  (fst (deposit Number amount w) = Err e ->
   db (snd (deposit Number amount w)) = db w) /\
  (fst (withdraw Number amount w) = Err e ->
   db (snd (withdraw Number amount w)) = db w) /\
  (fst (transfer Number amount to w) = Err e ->
   db (snd (transfer Number amount to w)) = db w).
Proof.
  intros He. repeat split; intros H.
  - destruct (deposit_trichotomy Number amount w) as [[t E] | [E | E]];
      [rewrite E in H; discriminate | rewrite E in H; congruence | exact E].
  - destruct (withdraw_trichotomy Number amount w) as [[t E] | [E | E]];
      [rewrite E in H; discriminate | rewrite E in H; congruence | exact E].
  - destruct (transfer Number amount to w) as [r w'] eqn:E. simpl in H |- *.
    subst r. eapply transfer_refusal; eassumption.
Qed.

Lemma refusal_writes_nothing_witness :
  fst (withdraw NumberOfLiteral "150" (fresh bank as_john)) = Err InsufficientFunds /\
  db (snd (withdraw NumberOfLiteral "150" (fresh bank as_john))) = bank.
Proof.
  split; [reflexivity |].
  apply (proj1 (proj2 (refusal_writes_nothing NumberOfLiteral "150" 2
                         (fresh bank as_john) InsufficientFunds
                         ltac:(discriminate)))).
  reflexivity.
Defined.

(** *** What a successful operation does to the balances *)

(** A deposit that returns has added the amount to the balance of the
    session's account and has left the rows of every other id as they
    were. *)
Theorem deposit_credits_the_session_account Number amount w t w' :
  deposit Number amount w = (Ok t, w') ->
  exists s b,
    session w = Some s /\
    balance_of (session_id s) (db w) = Some b /\
    balance_of (session_id s) (db w') = Some (Js.add b (Number amount)) /\
    forall i, i <> session_id s -> rows_of i (db w') = rows_of i (db w).
Proof.
  intros H.
  destruct (Logging.deposit_ok_inv _ _ _ _ _ H) as (s & a & rest & Hs & _ & Ha & ->).
  exists s, (acc_balance a). split; [exact Hs |].
  fold (rows_of (session_id s) (db w)) in Ha.
  rewrite !balance_of_rows, Ha. split; [reflexivity |].
  unfold apply_writes, deposit_writes. cbn [fold_left apply_write]. split.
  - rewrite rows_of_insert_transaction, rows_of_update_same, Ha. reflexivity.
  - intros i Hi. rewrite rows_of_insert_transaction.
    apply rows_of_update_other, Hi.
Qed.

Lemma deposit_credits_the_session_account_witness :
  balance_of 1 (db (snd (deposit NumberOfLiteral "25" (fresh bank as_john)))) =
    Some (Fin 125) /\
  rows_of 2 (db (snd (deposit NumberOfLiteral "25" (fresh bank as_john)))) = [mary].
Proof.
  destruct (deposit_credits_the_session_account NumberOfLiteral "25"
              (fresh bank as_john)
              (mkTransaction 1 1 Store.deposit (PStr "25") None)
              (snd (deposit NumberOfLiteral "25" (fresh bank as_john))) eq_refl)
    as (s & b & Hs & Hb & Hafter & Hframe).
  inversion Hs; subst s. inversion Hb; subst b. split.
  - exact Hafter.
  - rewrite (Hframe 2) by (simpl; lia). reflexivity.
Defined.

(** A withdraw that returns has taken the amount off the balance of the
    session's account.  Its UPDATE is keyed on that account's name: every
    row of that name ends with the new balance, and the rows of an id under
    which no row has that name are as they were. *)
Theorem withdraw_debits_by_name Number amount w t w' :
  withdraw Number amount w = (Ok t, w') ->
  exists s a rest,
    session w = Some s /\
    rows_of (session_id s) (db w) = a :: rest /\
    Js.gt (Number amount) (acc_balance a) = false /\
    balance_of (session_id s) (db w') =
      Some (Js.sub (acc_balance a) (Number amount)) /\
    (forall r, In r (accounts (db w)) -> acc_name r = acc_name a ->
       In (set_balance r (Js.sub (acc_balance a) (Number amount)))
          (accounts (db w'))) /\
    (forall i, Forall (fun r => acc_name r <> acc_name a) (rows_of i (db w)) ->
       rows_of i (db w') = rows_of i (db w)).
Proof.
  intros H.
  destruct (Logging.withdraw_ok_inv _ _ _ _ _ H)
    as (s & a & rest & Hs & _ & Ha & Hg & ->).
  exists s, a, rest. split; [exact Hs |].
  fold (rows_of (session_id s) (db w)) in Ha. split; [exact Ha |].
  split; [exact Hg |].
  unfold apply_writes, withdraw_writes. cbn [fold_left apply_write].
  rewrite balance_of_rows, rows_of_insert_transaction, rows_of_update_by_name, Ha.
  simpl map. rewrite String.eqb_refl. split; [reflexivity |]. split.
  - intros r Hin Hname. simpl. apply in_map_iff. exists r. split; [| exact Hin].
    apply String.eqb_eq in Hname. rewrite Hname. reflexivity.
  - intros i Hi. rewrite rows_of_insert_transaction, rows_of_update_by_name.
    apply map_unchanged. eapply Forall_impl; [| exact Hi].
    intros r Hr. simpl in Hr. apply String.eqb_neq in Hr. rewrite Hr. reflexivity.
Qed.

Lemma withdraw_debits_by_name_witness :
  balance_of 1 (db (snd (withdraw NumberOfLiteral "40" (fresh bank_two_johns as_john)))) =
    Some (Fin 60) /\
  In (set_balance john' (Fin 60))
     (accounts (db (snd (withdraw NumberOfLiteral "40" (fresh bank_two_johns as_john))))) /\
  rows_of 2 (db (snd (withdraw NumberOfLiteral "40" (fresh bank_two_johns as_john)))) =
    [mary].
Proof.
  destruct (withdraw_debits_by_name NumberOfLiteral "40"
              (fresh bank_two_johns as_john)
              (mkTransaction 1 1 Store.withdraw (PStr "40") None)
              (snd (withdraw NumberOfLiteral "40" (fresh bank_two_johns as_john)))
              eq_refl)
    as (s & a & rest & Hs & Ha & _ & Hafter & Hsame & Hframe).
  inversion Hs; subst s. inversion Ha; subst a rest. split; [exact Hafter |]. split.
  - apply (Hsame john'); [right; right; left; reflexivity | reflexivity].
  - rewrite (Hframe 2); [reflexivity |].
    repeat constructor. simpl. discriminate.
Defined.

(** With a session whose account the store holds and a store that answers,
    check-balance returns that account's id, name and balance. *)
Theorem check_balance_shows_the_session_account w s a rest :
  responsive w -> session w = Some s ->
  rows_of (session_id s) (db w) = a :: rest ->
  fst (check_balance w) =
    Ok {| view_id := session_id s; view_name := acc_name a;
          view_balance := acc_balance a |}.
Proof.
  intros [Hc Hf] Hs Ha.
  destruct (select_accounts_by_id_hd _ _ _ _ Ha) as [Hid _].
  unfold rows_of in Ha. open_world w. subst. run_action. rewrite Ha. simpl.
  rewrite Hid. reflexivity.
Qed.

Lemma check_balance_shows_the_session_account_witness :
  fst (check_balance (fresh bank as_john)) =
    Ok {| view_id := 1; view_name := "john"; view_balance := Fin 100 |}.
Proof.
  exact (check_balance_shows_the_session_account (fresh bank as_john)
           {| session_id := 1; session_name := "john" |} john []
           (conj eq_refl eq_refl) eq_refl eq_refl).
Defined.

(** With a session whose account the store holds, an amount that passes the
    amount check and a store that answers, a deposit returns; so does a
    withdraw of no more than the balance, and a transfer of no more than the
    balance to an id the store holds. *)
Theorem operations_return_when_checks_pass Number amount to w s a rest :
  responsive w -> session w = Some s ->
  bad_amount (Number amount) = false ->
  rows_of (session_id s) (db w) = a :: rest ->
  (exists t, fst (deposit Number amount w) = Ok t) /\
  (Js.gt (Number amount) (acc_balance a) = false ->
   (exists t, fst (withdraw Number amount w) = Ok t) /\
   (forall target rest',
      rows_of to (db w) = target :: rest' ->
      exists v, fst (transfer Number amount to w) = Ok v)).
Proof.
  intros Hr Hs Hb Ha. split; [| intros Hg; split].
  - eapply Logging.deposit_returns; eassumption.
  - eapply Logging.withdraw_returns; eassumption.
  - intros target rest' Ht. eapply Logging.transfer_returns; eassumption.
Qed.

Lemma operations_return_when_checks_pass_witness :
  (exists t, fst (deposit NumberOfLiteral "60" (fresh bank as_john)) = Ok t) /\
  (exists t, fst (withdraw NumberOfLiteral "60" (fresh bank as_john)) = Ok t) /\
  (exists v, fst (transfer NumberOfLiteral "60" 2 (fresh bank as_john)) = Ok v).
Proof.
  destruct (operations_return_when_checks_pass NumberOfLiteral "60" 2
              (fresh bank as_john) {| session_id := 1; session_name := "john" |}
              john [] (conj eq_refl eq_refl) eq_refl eq_refl eq_refl) as [Hd H].
  destruct (H eq_refl) as [Hw Ht].
  split; [exact Hd |]. split; [exact Hw |]. exact (Ht mary [] eq_refl).
Defined.

(** A transfer that returns between two different account ids has set the
    sender's balance to what the action computed from the balance it read,
    [balance - amount], and the receiver's to [balance + amount], and has
    left the rows of every other id as they were. *)
Theorem transfer_debits_and_credits Number amount to w v w' :
  transfer Number amount to w = (Ok v, w') ->
  exists s b tb,
    session w = Some s /\
    balance_of (session_id s) (db w) = Some b /\
    balance_of to (db w) = Some tb /\
    Js.gt (Number amount) b = false /\
    (session_id s <> to ->
     balance_of (session_id s) (db w') = Some (Js.sub b (Number amount)) /\
     balance_of to (db w') = Some (Js.add tb (Number amount))) /\
    (forall i, i <> session_id s -> i <> to ->
       rows_of i (db w') = rows_of i (db w)).
Proof.
  intros H.
  destruct (Logging.transfer_ok_inv _ _ _ _ _ _ H)
    as (s & a & rest & target & rest' & Hs & _ & Ht & Ha & Hg & ->).
  destruct (select_accounts_by_id_hd _ _ _ _ Ha) as [Hid _].
  destruct (select_accounts_by_id_hd _ _ _ _ Ht) as [Htid _].
  fold (rows_of (session_id s) (db w)) in Ha. fold (rows_of to (db w)) in Ht.
  exists s, (acc_balance a), (acc_balance target).
  rewrite !balance_of_rows, Ha, Ht.
  split; [exact Hs |]. split; [reflexivity |]. split; [reflexivity |].
  split; [exact Hg |].
  unfold apply_writes, transfer_writes. cbn [fold_left apply_write].
  rewrite Hid, Htid. split.
  - intros Hne. split.
    + rewrite rows_of_insert_transaction, rows_of_update_other by exact Hne.
      rewrite rows_of_insert_transaction, rows_of_update_same, Ha. reflexivity.
    + rewrite rows_of_insert_transaction, rows_of_update_same.
      rewrite rows_of_insert_transaction, rows_of_update_other by congruence.
      rewrite Ht. reflexivity.
  - intros i Hi Hti.
    rewrite rows_of_insert_transaction, rows_of_update_other by exact Hti.
    rewrite rows_of_insert_transaction. apply rows_of_update_other, Hi.
Qed.

(** A transfer of 60 from john to mary. *)
Lemma transfer_debits_and_credits_witness :
  balance_of 1 (db (snd (transfer NumberOfLiteral "60" 2 (fresh bank as_john)))) =
    Some (Fin 40) /\
  balance_of 2 (db (snd (transfer NumberOfLiteral "60" 2 (fresh bank as_john)))) =
    Some (Fin 60).
Proof.
  destruct (transfer_debits_and_credits NumberOfLiteral "60" 2 (fresh bank as_john)
              (mkTransferView
                 (mkTransaction 1 1 transfer_out (PNum (Fin 60)) (Some 2)) "mary"
                 (mkTransaction 2 2 transfer_in (PNum (Fin 60)) (Some 1)) "john")
              (snd (transfer NumberOfLiteral "60" 2 (fresh bank as_john))) eq_refl)
    as (s & b & tb & Hs & Hb & Htb & _ & Hmove & _).
  inversion Hs; subst s. inversion Hb; subst b. inversion Htb; subst tb.
  apply Hmove. simpl. lia.
Defined.

End Operations.

(* ------------------------------------------------------------------ *)
(** ** What each action leaves alone *)

Module Frames.
Import Js Store Atm Program Run Scenario.

(** *** Rules for [leaves] *)

Section Leaves.
Context {B : Type} (f : World -> B).

Lemma leaves_ret {A} (a : A) : leaves f (ret a).
Proof. intros w. reflexivity. Qed.

Lemma leaves_throw {A} e : leaves f (@throw A e).
Proof. intros w. reflexivity. Qed.

Lemma leaves_bind {A C} (m : M A) (k : A -> M C) :
  leaves f m -> (forall a, leaves f (k a)) -> leaves f (bind m k).
Proof.
  intros Hm Hk w. unfold bind. specialize (Hm w).
  destruct (m w) as [[a | e] w1]; simpl in *.
  - rewrite Hk. exact Hm.
  - exact Hm.
Qed.

Lemma leaves_try_finally {A} (m : M A) :
  (forall w, f (db_end w) = f w) -> leaves f m -> leaves f (try_finally m).
Proof. intros Hend Hm w. unfold try_finally. simpl. rewrite Hend. apply Hm. Qed.

Lemma leaves_destructure {A} (rows : list A) : leaves f (destructure rows).
Proof. destruct rows; intros w; reflexivity. Qed.

Lemma leaves_require_session o : leaves f (require_session o).
Proof. destruct o; intros w; reflexivity. Qed.

Lemma leaves_getSession : leaves f getSession.
Proof. intros w. reflexivity. Qed.

(** A statement changes the store and the counters of the run only. *)
Lemma leaves_execute {A} (stmt : Db -> A * Db) :
  (forall w d, f (with_db w d) = f w) ->
  (forall w k, f (with_issue w k) = f w) ->
  leaves f (execute stmt).
Proof.
  intros Hdb Hissue w. unfold execute.
  destruct (closed w); simpl; [apply Hissue |].
  destruct (fault w) as [[| k] |]; simpl; rewrite ?Hdb; apply Hissue.
Qed.

End Leaves.

(** A statement that only reads leaves the store as it is. *)
Lemma leaves_db_select {A} (stmt : Db -> A * Db) :
  (forall d, snd (stmt d) = d) -> leaves db (execute stmt).
Proof.
  intros Hread w. unfold execute.
  destruct (closed w); simpl; [reflexivity |].
  destruct (fault w) as [[| k] |]; simpl; rewrite ?Hread; reflexivity.
Qed.

Ltac leave H := apply leaves_bind; [H | intros ?].

Ltac leave_local :=
  first [ apply leaves_getSession | apply leaves_require_session
        | apply leaves_destructure | apply leaves_throw | apply leaves_ret
        | apply leaves_execute; intros; reflexivity ].

Lemma engine_leaves {B} (f : World -> B) Number :
  (forall w, f (db_end w) = f w) ->
  (forall w d, f (with_db w d) = f w) ->
  (forall w k, f (with_issue w k) = f w) ->
  leaves f check_balance /\
  (forall amount, leaves f (deposit Number amount)) /\
  (forall amount, leaves f (withdraw Number amount)) /\
  (forall amount to, leaves f (transfer Number amount to)).
Proof.
  intros Hend Hdb Hissue.
  assert (Hex : forall A (stmt : Db -> A * Db), leaves f (execute stmt))
    by (intros; apply leaves_execute; assumption).
  repeat split; intros;
    unfold check_balance, deposit, withdraw, transfer;
    (apply leaves_try_finally; [exact Hend |]);
    repeat first
      [ apply Hex | apply leaves_getSession | apply leaves_require_session
      | apply leaves_destructure | apply leaves_throw | apply leaves_ret
      | apply leaves_bind; [| intros ?]
      | match goal with
        | |- leaves _ (if ?c then _ else _) => destruct c
        end ].
Qed.

Lemma register_leaves {B} (f : World -> B) bcrypt_hash name pin w :
  (forall w, f (db_end w) = f w) ->
  (forall w d, f (with_db w d) = f w) ->
  (forall w k, f (with_issue w k) = f w) ->
  f (snd (register bcrypt_hash name pin w)) = f w.
Proof.
  intros Hend Hdb Hissue. unfold register.
  destruct pin as [p |]; simpl; [| apply Hend].
  destruct (bad_pin p); simpl; [apply Hend |].
  rewrite Hend. apply leaves_execute; assumption.
Qed.

(** The session file and the failure counter are written by login alone:
    check-balance, deposit, withdraw, transfer and register leave both as
    they found them, on every exit. *)
Theorem only_login_writes_session_and_counter Number bcrypt_hash w :
  (session (snd (check_balance w)) = session w /\
   failedLoginAttempts (snd (check_balance w)) = failedLoginAttempts w) /\
  (forall amount,
     session (snd (deposit Number amount w)) = session w /\
     failedLoginAttempts (snd (deposit Number amount w)) = failedLoginAttempts w) /\
  (forall amount,
     session (snd (withdraw Number amount w)) = session w /\
     failedLoginAttempts (snd (withdraw Number amount w)) = failedLoginAttempts w) /\
  (forall amount to,
     session (snd (transfer Number amount to w)) = session w /\
     failedLoginAttempts (snd (transfer Number amount to w)) = failedLoginAttempts w) /\
  (forall name pin,
     session (snd (register bcrypt_hash name pin w)) = session w /\
     failedLoginAttempts (snd (register bcrypt_hash name pin w)) = failedLoginAttempts w).
Proof.
  destruct (engine_leaves session Number) as (Sc & Sd & Sw & St);
    try (intros; reflexivity).
  destruct (engine_leaves failedLoginAttempts Number) as (Fc & Fd & Fw & Ft);
    try (intros; reflexivity).
  repeat split; intros;
    first [ apply Sc | apply Sd | apply Sw | apply St
          | apply Fc | apply Fd | apply Fw | apply Ft
          | apply register_leaves; intros; reflexivity ].
Qed.

Lemma login_reads verify name pin w : db (snd (login verify name pin w)) = db w.
Proof.
  unfold login. destruct (3 <=? failedLoginAttempts w)%nat; [reflexivity |].
  revert w. apply leaves_try_finally; [reflexivity |].
  leave ltac:(destruct pin; leave_local).
  leave ltac:(apply leaves_db_select; reflexivity).
  destruct (List.length _ <? 1)%nat.
  - leave ltac:(intros w; reflexivity). leave_local.
  - leave leave_local. simpl.
    leave ltac:(intros w; reflexivity). leave ltac:(intros w; reflexivity).
    leave_local.
Qed.

Lemma check_balance_reads w : db (snd (check_balance w)) = db w.
Proof.
  revert w. unfold check_balance. apply leaves_try_finally; [reflexivity |].
  leave leave_local. leave leave_local.
  leave ltac:(apply leaves_db_select; reflexivity).
  leave leave_local. leave_local.
Qed.

(** Login and check-balance only read the store: whatever they are given
    and however they end, accounts and transactions are as they were. *)
Theorem login_and_check_balance_only_read verify name pin w :
  db (snd (login verify name pin w)) = db w /\
  db (snd (check_balance w)) = db w.
Proof. split; [apply login_reads | apply check_balance_reads]. Qed.

(** Each action ends in [db.end()], whether it returned or failed; the one
    exit that skips it is the early return of a locked-out login, which
    leaves the connection as it was. *)
Theorem connection_is_closed_on_exit Number verify bcrypt_hash w :
  closed (snd (check_balance w)) = true /\
  (forall amount, closed (snd (deposit Number amount w)) = true) /\
  (forall amount, closed (snd (withdraw Number amount w)) = true) /\
  (forall amount to, closed (snd (transfer Number amount to w)) = true) /\
  (forall name pin, closed (snd (register bcrypt_hash name pin w)) = true) /\
  (forall name pin,
     closed (snd (login verify name pin w)) =
     if (3 <=? failedLoginAttempts w)%nat then closed w else true).
Proof.
  repeat split; intros; try reflexivity.
  - unfold register. destruct pin as [p |]; [destruct (bad_pin p) |]; reflexivity.
  - unfold login. destruct (3 <=? failedLoginAttempts w)%nat; reflexivity.
Qed.

End Frames.

(* ------------------------------------------------------------------ *)
(** ** The register action *)

Module Registration.
Import Js Store Atm Program Run Scenario.

Lemma digits_exactly_iff n s :
  digits_exactly n s = true <->
  String.length s = n /\ Forall (fun c => Js.digit c <> None) (list_ascii_of_string s).
Proof.
  revert s. induction n as [| n IH]; intros [| c r]; simpl.
  - split; [intros _; split; [reflexivity | constructor] | reflexivity].
  - split; [discriminate | intros [H _]; discriminate].
  - split; [discriminate | intros [H _]; discriminate].
  - destruct (Js.digit c) as [z |] eqn:Ec.
    + rewrite IH. split.
      * intros [Hl Hf]. split; [congruence |]. constructor; [congruence | exact Hf].
      * intros [Hl Hf]. inversion Hf; subst. split; [congruence | assumption].
    + split; [discriminate |]. intros [_ Hf]. inversion Hf; subst. congruence.
Qed.

(** The check of the register action lets through the six-digit PINs and
    nothing else. *)
Lemma bad_pin_iff p : bad_pin p = false <-> six_digit_pin p.
Proof.
  unfold bad_pin, six_digit_pin. rewrite orb_false_iff, !negb_false_iff.
  rewrite digits_exactly_iff, Nat.eqb_eq. tauto.
Qed.

(** Every id in the table is below the one the next account gets. *)
Lemma next_account_id_fresh d :
  Forall (fun a => acc_id a < next_account_id d) (accounts d).
Proof.
  unfold next_account_id. induction (accounts d) as [| a l IH]; cbn [map fold_right].
  - constructor.
  - constructor; [lia |]. eapply Forall_impl; [| exact IH].
    intros r Hr. cbn beta in Hr. lia.
Qed.

(** Register refuses a PIN that is not six decimal digits, and a run without
    the [-p] flag, before any statement is issued. *)
Theorem register_requires_a_six_digit_pin bcrypt_hash name w :
  register bcrypt_hash name None w = (PinMissing, db_end w) /\
  (forall p, ~ six_digit_pin p ->
     register bcrypt_hash name (Some p) w = (PinFormat, db_end w)).
Proof.
  split; [reflexivity |]. intros p Hp. unfold register.
  destruct (bad_pin p) eqn:E; [reflexivity |].
  apply bad_pin_iff in E. contradiction.
Qed.

Lemma register_requires_a_six_digit_pin_witness :
  register hash_bracket "ann" (Some "12345a") (fresh bank None) =
    (PinFormat, db_end (fresh bank None)) /\
  register hash_bracket "ann" (Some "1234567") (fresh bank None) =
    (PinFormat, db_end (fresh bank None)).
Proof.
  split.
  - apply (proj2 (register_requires_a_six_digit_pin hash_bracket "ann"
                    (fresh bank None)) "12345a").
    intros H. apply bad_pin_iff in H. discriminate H.
  - apply (proj2 (register_requires_a_six_digit_pin hash_bracket "ann"
                    (fresh bank None)) "1234567").
    intros [H _]. discriminate H.
Defined.

(** The action makes no check of the name.  With a six-digit PIN and a
    store that accepts the INSERT, register succeeds under any name, taken
    or not.  It appends one account, under an id above every id in the
    table, with the hash of the PIN and balance 0; the rows already there,
    the transactions and the session file are as they were. *)
Theorem register_appends_one_account bcrypt_hash name p w :
  six_digit_pin p -> responsive w ->
  fst (register bcrypt_hash name (Some p) w) = Registered /\
  accounts (db (snd (register bcrypt_hash name (Some p) w))) =
    accounts (db w) ++ [ new_account (db w) name (bcrypt_hash p) ] /\
  Forall (fun a => acc_id a < acc_id (new_account (db w) name (bcrypt_hash p)))
         (accounts (db w)) /\
  transactions (db (snd (register bcrypt_hash name (Some p) w))) =
    transactions (db w) /\
  session (snd (register bcrypt_hash name (Some p) w)) = session w.
Proof.
  intros Hp [Hc Hf]. apply bad_pin_iff in Hp. unfold register. rewrite Hp.
  open_world w. subst. run_action. repeat split; try reflexivity.
  apply next_account_id_fresh.
Qed.

(** john is registered a second time. *)
Lemma register_appends_one_account_witness :
  six_digit_pin "111111" /\
  fst (register hash_bracket "john" (Some "111111") (fresh bank None)) = Registered /\
  accounts (db (snd (register hash_bracket "john" (Some "111111") (fresh bank None)))) =
    [ john; mary;
      {| acc_id := 3; acc_name := "john";
         acc_pin := "[111111]"; acc_balance := Fin 0 |} ].
Proof.
  assert (Hp : six_digit_pin "111111") by (apply bad_pin_iff; reflexivity).
  split; [exact Hp |].
  destruct (register_appends_one_account hash_bracket "john" "111111"
              (fresh bank None) Hp (conj eq_refl eq_refl)) as (Hr & Ha & _).
  split; [exact Hr | exact Ha].
Defined.

(** After a successful register under a name no account had, a login under
    that name, in a later run of the program against a store that answers,
    returns the new account with balance 0, whatever PIN is typed. *)
Theorem register_then_login bcrypt_hash verify name p p' w :
  six_digit_pin p -> responsive w ->
  fst (select_accounts_by_name name (db w)) = [] ->
  fst (login verify name (Some p')
         (spawn (snd (register bcrypt_hash name (Some p) w)) None)) =
    Ok {| view_id := next_account_id (db w); view_name := name;
          view_balance := Fin 0 |}.
Proof.
  intros Hp [Hc Hf] Hnone. apply bad_pin_iff in Hp. unfold register. rewrite Hp.
  open_world w. subst. unfold login. run_action.
  rewrite filter_app, Hnone. simpl. rewrite String.eqb_refl. reflexivity.
Qed.

Lemma register_then_login_witness :
  fst (login verify_bracket "ann" (Some "000000")
         (spawn (snd (register hash_bracket "ann" (Some "246810") (fresh bank None)))
                None)) =
    Ok {| view_id := 3; view_name := "ann"; view_balance := Fin 0 |}.
Proof.
  apply (register_then_login hash_bracket verify_bracket "ann" "246810" "000000"
           (fresh bank None)).
  - apply bad_pin_iff. reflexivity.
  - split; reflexivity.
  - reflexivity.
Defined.

End Registration.

(* ------------------------------------------------------------------ *)
(** ** Login and the session file *)

Module Sessions.
Import Js Store Atm Program Run Scenario.

(** Below the lockout threshold and with a store that answers, a login under
    a name no account has fails with InvalidCredentials and counts one
    failure; session file and store are as they were. *)
Theorem unknown_name_counts_a_failure verify name p w :
  (failedLoginAttempts w < 3)%nat -> responsive w ->
  fst (select_accounts_by_name name (db w)) = [] ->
  fst (login verify name (Some p) w) = Err InvalidCredentials /\
  failedLoginAttempts (snd (login verify name (Some p) w)) =
    S (failedLoginAttempts w) /\
  session (snd (login verify name (Some p) w)) = session w /\
  db (snd (login verify name (Some p) w)) = db w.
Proof.
  intros Hn [Hc Hf] Ha. open_world w. subst.
  apply Nat.leb_gt in Hn. unfold login. cbn [failedLoginAttempts]. rewrite Hn.
  run_action. rewrite Ha. simpl. repeat split; reflexivity.
Qed.

Lemma unknown_name_counts_a_failure_witness :
  fst (login verify_bracket "nobody" (Some "123456") (fresh bank as_john)) =
    Err InvalidCredentials /\
  failedLoginAttempts
    (snd (login verify_bracket "nobody" (Some "123456") (fresh bank as_john))) = 1%nat /\
  session (snd (login verify_bracket "nobody" (Some "123456") (fresh bank as_john))) =
    as_john /\
  db (snd (login verify_bracket "nobody" (Some "123456") (fresh bank as_john))) = bank.
Proof.
  apply (unknown_name_counts_a_failure verify_bracket "nobody" "123456"
           (fresh bank as_john)).
  - simpl. lia.
  - split; reflexivity.
  - reflexivity.
Defined.

(** Without the [-p] flag a login below the threshold fails with PinRequired
    before any statement is issued, and counts no failure. *)
Theorem login_without_the_pin_flag verify name w :
  (failedLoginAttempts w < 3)%nat ->
  login verify name None w = (Err PinRequired, db_end w).
Proof.
  intros Hn. apply Nat.leb_gt in Hn. unfold login. rewrite Hn. reflexivity.
Qed.

Lemma login_without_the_pin_flag_witness :
  login verify_bracket "john" None (fresh bank None) =
    (Err PinRequired, db_end (fresh bank None)).
Proof.
  apply (login_without_the_pin_flag verify_bracket "john" (fresh bank None)).
  simpl. lia.
Defined.

(** A login that fails, for whatever reason, leaves the session file as it
    was: an earlier session stays in force. *)
Theorem failed_login_keeps_the_session verify name pin w e :
  fst (login verify name pin w) = Err e ->
  session (snd (login verify name pin w)) = session w.
Proof.
  unfold login. destruct (3 <=? failedLoginAttempts w)%nat; [reflexivity |].
  open_world w. destruct pin as [p |]; run_action; [| reflexivity].
  destruct c; simpl; [reflexivity |].
  destruct f as [[| k] |]; simpl; try reflexivity;
    (destruct (filter _ (accounts d)) as [| a rest]; simpl;
     [reflexivity | discriminate]).
Qed.

Lemma failed_login_keeps_the_session_witness :
  session (snd (login verify_bracket "nobody" (Some "123456") (fresh bank as_john))) =
    as_john.
Proof.
  apply (failed_login_keeps_the_session verify_bracket "nobody" (Some "123456")
           (fresh bank as_john) InvalidCredentials).
  reflexivity.
Defined.

Lemma login_ok_inv verify name pin w v w' :
  login verify name pin w = (Ok v, w') ->
  exists a rest,
    fst (select_accounts_by_name name (db w)) = a :: rest /\
    acc_name a = name /\
    v = {| view_id := acc_id a; view_name := acc_name a;
           view_balance := acc_balance a |} /\
    session w' = Some {| session_id := acc_id a; session_name := acc_name a |}.
Proof.
  unfold login. destruct (3 <=? failedLoginAttempts w)%nat; [discriminate |].
  intros H. unframe H.
  unbind H as p w1 Hp.
  assert (Hw1 : w1 = w) by (destruct pin; inversion Hp; reflexivity). subst w1.
  unbind H as rows w2 Hsel. apply execute_inv in Hsel. destruct Hsel as (-> & D & S).
  destruct (List.length _ <? 1)%nat.
  - unbind H as u w3 Hincr. discriminate H.
  - unbind H as a w3 Hrow. apply destructure_inv in Hrow.
    destruct Hrow as [-> [rest Hrows]]. simpl in H.
    unbind H as u w4 Hreset. unbind H as u' w5 Hsave.
    unfold failedLoginAttempts_reset in Hreset. unfold saveSession in Hsave.
    unfold ret in H. inversion Hreset; inversion Hsave; inversion H; subst.
    exists a, rest. split; [exact Hrows |]. split; [| split; reflexivity].
    simpl in Hrows.
    assert (Hin : In a (filter (fun a0 => String.eqb (acc_name a0) name)
                               (accounts (db w))))
      by (rewrite Hrows; left; reflexivity).
    apply filter_In in Hin. destruct Hin as [_ E]. apply String.eqb_eq in E. exact E.
Qed.

(** A login that returns found an account of that name; it shows the first
    such row and writes that row's id and name to the session file. *)
Theorem login_returns_the_first_account_of_that_name verify name pin w v w' :
  login verify name pin w = (Ok v, w') ->
  exists a rest,
    fst (select_accounts_by_name name (db w)) = a :: rest /\
    acc_name a = name /\
    v = {| view_id := acc_id a; view_name := acc_name a;
           view_balance := acc_balance a |} /\
    session w' = Some {| session_id := acc_id a; session_name := acc_name a |}.
Proof. apply login_ok_inv. Qed.

Lemma login_returns_the_first_account_of_that_name_witness :
  session (snd (login verify_bracket "john" (Some "123456")
                  (fresh bank_two_johns None))) =
    Some {| session_id := 1; session_name := "john" |}.
Proof.
  destruct (login_returns_the_first_account_of_that_name verify_bracket "john"
              (Some "123456") (fresh bank_two_johns None)
              {| view_id := 1; view_name := "john"; view_balance := Fin 100 |}
              (snd (login verify_bracket "john" (Some "123456")
                      (fresh bank_two_johns None)))
              eq_refl) as (a & rest & Ha & _ & _ & Hs).
  inversion Ha; subst a rest. exact Hs.
Defined.

(** After a login that returns, check-balance in a later run of the program,
    against a store that answers, returns an account view under the id the
    login showed. *)
Theorem login_then_check_balance verify name pin w v w' :
  login verify name pin w = (Ok v, w') ->
  exists v',
    fst (check_balance (spawn w' None)) = Ok v' /\ view_id v' = view_id v.
Proof.
  intros H.
  assert (Hdb : db w' = db w).
  { pose proof (Frames.login_reads verify name pin w) as E.
    rewrite H in E. exact E. }
  destruct (login_ok_inv _ _ _ _ _ _ H) as (a & rest & Ha & _ & -> & Hs).
  assert (Hin : In a (accounts (db w))).
  { simpl in Ha.
    assert (Hin : In a (filter (fun a0 => String.eqb (acc_name a0) name)
                               (accounts (db w))))
      by (rewrite Ha; left; reflexivity).
    apply filter_In in Hin. apply Hin. }
  destruct (filter (fun r => acc_id r =? acc_id a) (accounts (db w)))
    as [| r rest'] eqn:E.
  - assert (Hf : In a (filter (fun r => acc_id r =? acc_id a) (accounts (db w))))
      by (apply filter_In; split; [exact Hin | apply Z.eqb_refl]).
    rewrite E in Hf. destruct Hf.
  - exists {| view_id := acc_id r; view_name := acc_name r;
              view_balance := acc_balance r |}.
    assert (Hr : acc_id r = acc_id a).
    { assert (Hf : In r (filter (fun r => acc_id r =? acc_id a) (accounts (db w))))
        by (rewrite E; left; reflexivity).
      apply filter_In in Hf. apply Z.eqb_eq, Hf. }
    split; [| exact Hr].
    unfold check_balance, try_finally, bind, getSession, require_session, execute.
    simpl. rewrite Hs. simpl. rewrite Hdb, E. reflexivity.
Qed.


Lemma login_then_check_balance_witness :
  view_id {| view_id := 1; view_name := "john"; view_balance := Fin 100 |} = 1 /\
  exists v',
    fst (check_balance
           (spawn (snd (login verify_bracket "john" (Some "123456") (fresh bank None)))
                  None)) = Ok v' /\
    view_id v' = 1.
Proof.
  split; [reflexivity |].
  exact (login_then_check_balance verify_bracket "john" (Some "123456")
           (fresh bank None)
           {| view_id := 1; view_name := "john"; view_balance := Fin 100 |}
           (snd (login verify_bracket "john" (Some "123456") (fresh bank None)))
           eq_refl).
Defined.

(** The generalisation of the run of claim C1: any name that exists, any
    PIN, any Credential Service. *)
Lemma login_returns_for_any_pin_witness :
  verify_bracket "999999" (acc_pin mary) = false /\
  fst (login verify_bracket "mary" (Some "999999") (fresh bank None)) =
    Ok {| view_id := 2; view_name := "mary"; view_balance := Fin 0 |} /\
  failedLoginAttempts
    (snd (login verify_bracket "mary" (Some "999999") (fresh bank None))) = O.
Proof.
  split; [reflexivity |].
  destruct (Auth.login_returns_for_any_pin verify_bracket "mary" "999999"
              (fresh bank None) mary [] ltac:(simpl; lia) (conj eq_refl eq_refl)
              eq_refl) as (Hv & Hn & _).
  split; [exact Hv | exact Hn].
Defined.

End Sessions.

(* ------------------------------------------------------------------ *)
(** ** Sequences of runs *)

Module Sequences.
Import Js Store Atm Program Run Scenario Balances.

(** *** A stable property survives every action *)

Section Stable.
Variable I : Db -> Prop.
Hypothesis HI : stable I.

Lemma stable_read {A} (stmt : Db -> A * Db) :
  (forall d, snd (stmt d) = d) -> keeps I (execute stmt) (fun _ => True).
Proof. intros H. apply keeps_execute_any. intros d Hd. rewrite H. exact Hd. Qed.

Lemma stable_update_by_id b i :
  keeps I (execute (update_balance_by_id b i)) (fun _ => True).
Proof. apply keeps_execute_any. intros d. apply HI. Qed.

Lemma stable_update_by_name b n :
  keeps I (execute (update_balance_by_name b n)) (fun _ => True).
Proof. apply keeps_execute_any. intros d. apply HI. Qed.

Lemma stable_insert_transaction i ty amount target :
  keeps I (execute (insert_transaction i ty amount target)) (fun _ => True).
Proof. apply keeps_execute_any. intros d. apply HI. Qed.

Ltac stable_step :=
  first
    [ apply keeps_throw
    | apply keeps_ret; exact Logic.I
    | apply keeps_getSession
    | apply keeps_require_session
    | apply keeps_destructure, Forall_True
    | apply stable_update_by_id
    | apply stable_update_by_name
    | apply stable_insert_transaction
    | apply stable_read; reflexivity ].

Ltac stable_chain :=
  repeat first
    [ stable_step
    | apply keeps_bind with (Q := fun _ => True); [| intros ? _]
    | match goal with
      | |- keeps _ (if ?c then _ else _) _ => destruct c
      end ].

Lemma action_stable Number verify c w :
  I (db w) -> I (db (action Number verify c w)).
Proof.
  intros Hw. destruct c; cbn [action].
  - rewrite Frames.login_reads. exact Hw.
  - rewrite Frames.check_balance_reads. exact Hw.
  - assert (K : keeps I (deposit Number amount) (fun _ => True))
      by (unfold deposit; apply keeps_try_finally; stable_chain).
    apply (proj1 (K w Hw)).
  - assert (K : keeps I (withdraw Number amount) (fun _ => True))
      by (unfold withdraw; apply keeps_try_finally; stable_chain).
    apply (proj1 (K w Hw)).
  - assert (K : keeps I (transfer Number amount to) (fun _ => True))
      by (unfold transfer; apply keeps_try_finally; stable_chain).
    apply (proj1 (K w Hw)).
Qed.

Lemma register_stable bcrypt_hash name pin w :
  I (db w) -> I (db (snd (register bcrypt_hash name pin w))).
Proof.
  intros Hw. unfold register. destruct pin as [p |]; [| exact Hw].
  destruct (bad_pin p); [exact Hw |]. simpl.
  unfold execute. destruct (closed w); [exact Hw |].
  destruct (fault w) as [[| k] |]; simpl; [exact Hw | |]; apply HI, Hw.
Qed.

Lemma runs_stable bcrypt_hash Number verify invs : forall w,
  I (db w) -> I (db (runs bcrypt_hash Number verify invs w)).
Proof.
  unfold runs. induction invs as [| [i f] invs IH]; intros w Hw; simpl.
  - exact Hw.
  - apply IH. destruct i as [name pin | c]; simpl.
    + apply register_stable. exact Hw.
    + apply action_stable. exact Hw.
Qed.

End Stable.

Lemma extends_refl {A} (l : list A) : extends l l.
Proof. exists []. symmetry. apply app_nil_r. Qed.

Lemma extends_app {A} (l0 l more : list A) : extends l0 l -> extends l0 (l ++ more).
Proof. intros [m ->]. exists (m ++ more). symmetry. apply app_assoc. Qed.

Lemma update_keeps_identity (g : Account -> Account) l :
  (forall r, identity (g r) = identity r) -> map identity (map g l) = map identity l.
Proof. intros H. rewrite map_map. apply map_ext. exact H. Qed.

Lemma transactions_only_grow_stable T0 :
  stable (fun d => extends T0 (transactions d)).
Proof.
  repeat split; intros; simpl; try assumption. apply extends_app. assumption.
Qed.

Lemma identities_only_grow_stable K0 :
  stable (fun d => extends K0 (map identity (accounts d))).
Proof.
  repeat split; intros; simpl.
  - rewrite update_keeps_identity; [assumption |].
    intros r. destruct (acc_id r =? i); reflexivity.
  - rewrite update_keeps_identity; [assumption |].
    intros r. destruct (String.eqb (acc_name r) n); reflexivity.
  - assumption.
  - rewrite map_app. apply extends_app. assumption.
Qed.

(** The transaction log is append-only.  Through any sequence of runs of the
    program (register, login, check-balance, deposit, withdraw, transfer,
    with any arguments, the store free to fail at any statement) the rows
    that were in [transactions] stay, unchanged and in place; rows are only
    added after them. *)
Theorem transactions_are_only_appended bcrypt_hash Number verify invs w :
  extends (transactions (db w))
          (transactions (db (runs bcrypt_hash Number verify invs w))).
Proof.
  apply (runs_stable _ (transactions_only_grow_stable (transactions (db w)))).
  apply extends_refl.
Qed.

(** Accounts are never removed, and the id, name and PIN hash of an account
    never change: through any sequence of runs of the program the table
    keeps its rows in place, with at most their balances changed, and new
    accounts come after them. *)
Theorem accounts_keep_their_identity bcrypt_hash Number verify invs w :
  extends (map identity (accounts (db w)))
          (map identity (accounts (db (runs bcrypt_hash Number verify invs w)))).
Proof.
  apply (runs_stable _ (identities_only_grow_stable (map identity (accounts (db w))))).
  apply extends_refl.
Qed.

(** No balance in the store is ever negative after a sequence of runs that
    may also register accounts: a new account starts at balance 0. *)
Theorem balances_stay_non_negative_with_registrations
        bcrypt_hash Number verify invs : forall w,
  no_negative_balance (db w) ->
  no_negative_balance (db (runs bcrypt_hash Number verify invs w)).
Proof.
  unfold runs. induction invs as [| [i f] invs IH]; intros w Hw; simpl.
  - exact Hw.
  - apply IH. destruct i as [name pin | c]; simpl.
    + unfold register. destruct pin as [p |]; [| exact Hw].
      destruct (bad_pin p); [exact Hw |]. simpl.
      destruct f as [[| k] |]; simpl; try exact Hw;
        (apply Forall_app; split; [exact Hw | repeat constructor]).
    + apply action_keeps. exact Hw.
Qed.

Lemma balances_stay_non_negative_with_registrations_witness :
  no_negative_balance bank /\
  no_negative_balance
    (db (runs hash_bracket NumberOfLiteral verify_bracket
           [ (Register "ann" (Some "246810"), None);
             (Engine (Login "ann" (Some "000000")), None);
             (Engine (Withdraw "10"), None);
             (Engine (Transfer "60" 3), Some 3%nat) ]
           (fresh bank as_john))).
Proof.
  assert (H : no_negative_balance bank) by (repeat constructor).
  split; [exact H |].
  apply (balances_stay_non_negative_with_registrations hash_bracket NumberOfLiteral
           verify_bracket _ (fresh bank as_john) H).
Defined.


End Sequences.
